(** * Agent orchestration for cloud architecture planning

    A shallow embedding of
    [Python_Exam/Test Agent Orchestration for Cloud Architecture Planning.py]:
    the [AgentResponse] record, the [ResearchAgent] lookup utility, the five
    agents and the [Orchestrator] that runs them in sequence, together with
    the properties of the pipeline. *)

From Stdlib Require Import String Ascii List ZArith Bool Lia.
Import ListNotations.
Local Open Scope string_scope.

(** ** Python values and ordered dictionaries *)

Module Py.

#[local] Set Warnings "-register-all".

(** The values that flow through the pipeline ([Any] in the annotations).
    A float is kept as the decimal literal of the source: the program never
    computes with it and only formats it with [str]. *)
Inductive value : Type :=
| VInt (n : Z)
| VFloat (literal : string)
| VStr (s : string)
| VList (items : list value)
| VDict (entries : list (string * value)).

(** A Python [dict] with string keys: the entries in insertion order.  A
    dictionary never holds a key twice ([wf]). *)
Definition dict (V : Type) : Type := list (string * V).

Definition keys {V} (d : dict V) : list string := map fst d.

Definition wf {V} (d : dict V) : Prop := NoDup (keys d).

(** [d.get(k)], [None] when the key is absent. *)
Fixpoint dict_get {V} (d : dict V) (k : string) : option V :=
  match d with
  | [] => None
  | (k', v) :: rest => if String.eqb k' k then Some v else dict_get rest k
  end.

(** [k in d]. *)
Definition dict_mem {V} (d : dict V) (k : string) : bool :=
  match dict_get d k with Some _ => true | None => false end.

(** [d[k] = v]: an existing key keeps its position and takes the new value,
    a new key goes to the end. *)
Fixpoint dict_set {V} (d : dict V) (k : string) (v : V) : dict V :=
  match d with
  | [] => [(k, v)]
  | (k', v') :: rest =>
      if String.eqb k' k then (k, v) :: rest else (k', v') :: dict_set rest k v
  end.

(** [{**d, **o}]: the entries of [o] are stored into a copy of [d], one
    after the other. *)
Definition dict_update {V} (d o : dict V) : dict V :=
  fold_left (fun acc kv => dict_set acc (fst kv) (snd kv)) o d.

(** [needle in haystack] on two strings: substring test. *)
Definition str_contains (haystack needle : string) : bool :=
  match String.index 0 needle haystack with
  | Some _ => true
  | None => false
  end.

(** [v == s] for a string [s]: only a string equals a string. *)
Definition eq_str (s : string) (v : value) : bool :=
  match v with
  | VStr t => String.eqb t s
  | _ => false
  end.

(** A [str] is held as the bytes of its UTF-8 encoding.  A lone surrogate
    (U+D800 to U+DFFF), which a [str] may hold but UTF-8 proper cannot
    encode, is held as the three bytes of its generalised encoding: [ED], a
    byte from [A0] to [BF], a byte from [80] to [BF].  [ED] is never a
    continuation byte, so a surrogate is there exactly when [ED] is followed
    by a byte from [A0] to [BF]. *)
Definition surrogate_second (s : string) : bool :=
  match s with
  | String c _ =>
      ((160 <=? nat_of_ascii c)%nat && (nat_of_ascii c <=? 191)%nat)%bool
  | EmptyString => false
  end.

Fixpoint has_surrogate (s : string) : bool :=
  match s with
  | EmptyString => false
  | String c rest =>
      (Ascii.eqb c "237"%char && surrogate_second rest) || has_surrogate rest
  end.

(** Keys first seen, in order of first appearance: the key order of a
    dictionary filled by successive stores. *)
Fixpoint first_seen (seen ks : list string) : list string :=
  match ks with
  | [] => []
  | k :: rest =>
      if existsb (String.eqb k) seen then first_seen seen rest
      else k :: first_seen (seen ++ [k])%list rest
  end.

End Py.
Export Py.

(** ** Effects: standard output and exceptions *)

Inductive exn : Type :=
| AttributeError
| TypeError
| UnicodeEncodeError (object : string).

(** What [print] has written so far, one line per entry.  Standard output
    is a UTF-8 text stream with strict error handling, Python's default. *)
Definition stdout : Type := list string.

Definition M (A : Type) : Type := stdout -> (exn + A) * stdout.

Definition ret {A} (a : A) : M A := fun out => (inr a, out).

Definition raise {A} (e : exn) : M A := fun out => (inl e, out).

Definition bind {A B} (m : M A) (f : A -> M B) : M B :=
  fun out =>
    match m out with
    | (inr a, out') => f a out'
    | (inl e, out') => (inl e, out')
    end.

(** [print(line)]: a line that holds a lone surrogate cannot be encoded;
    the stream raises and writes nothing. *)
Definition print (line : string) : M unit :=
  fun out =>
    if has_surrogate line then (inl (UnicodeEncodeError line), out)
    else (inr tt, (out ++ [line])%list).

Notation "x <- m ;; k" := (bind m (fun x => k))
  (at level 61, m at next level, right associativity).
Notation "m ;;; k" := (bind m (fun _ => k))
  (at level 61, right associativity).

(** [obj.get(key, default)]: only a [dict] has the method. *)
Definition py_get (obj : value) (key : string) (default : value) : M value :=
  match obj with
  | VDict d =>
      ret (match dict_get d key with Some v => v | None => default end)
  | _ => raise AttributeError
  end.

(** [s in container] for a string [s]. *)
Definition py_in (s : string) (container : value) : M bool :=
  match container with
  | VList items => ret (existsb (eq_str s) items)
  | VStr t => ret (str_contains t s)
  | VDict d => ret (dict_mem d s)
  | VInt _ | VFloat _ => raise TypeError
  end.

(** ** AgentResponse *)

Record AgentResponse : Type := mkAgentResponse {
  name : string;
  output : dict value
}.

(** ** ResearchAgent *)

(** The class has no fields. *)
Inductive ResearchAgent : Type := mkResearchAgent.

Definition simulated_results : dict string :=
  [ ("PCI-DSS", "Found compliance guidelines from AWS and GCP docs.");
    ("GDPR", "Retrieved GDPR checklist from official EU documentation.");
    ("Serverless",
     "Compared AWS Lambda vs Cloud Run performance for low-traffic apps.");
    ("Containers", "Fetched ECS vs GKE vs AKS comparison benchmark.") ].

(** The [str] made of the lone surrogate U+D800. *)
Definition lone_surrogate : string :=
  String "237"%char (String "160"%char (String "128"%char EmptyString)).

Definition no_info (topic : string) : string :=
  "No relevant info found for '" ++ topic ++ "'.".

Definition query (self : ResearchAgent) (topic : string) : M string :=
  print ("[ResearchAgent] Searching the web for: " ++ topic ++ " ...") ;;;
  ret (match dict_get simulated_results topic with
       | Some summary => summary
       | None => no_info topic
       end).

(** ** The five agents *)

(** [RequirementsAgent.run]: the requirements are fixed; the problem text is
    not read. *)
Definition RequirementsAgent_run (problem : value) : M AgentResponse :=
  let reqs :=
    [ ("users_per_day", VInt 1000);
      ("features",
       VList [VStr "catalog"; VStr "cart"; VStr "payment";
              VStr "admin_dashboard"]);
      ("data_types",
       VList [VStr "user_profiles"; VStr "payment_info"; VStr "inventory"]);
      ("constraints",
       VList [VStr "scalable"; VStr "secure_payments"; VStr "low_ops"]) ] in
  ret (mkAgentResponse "RequirementsAgent" reqs).

Definition security_controls : value :=
  VList [VStr "Encryption at rest/in transit";
         VStr "Least-privilege IAM";
         VStr "WAF, audit logging"].

(** [compliance or ["None"]]: an empty list is falsy. *)
Definition or_none (compliance : list value) : list value :=
  match compliance with
  | [] => [VStr "None"]
  | _ :: _ => compliance
  end.

(** [ComplianceAgent.run].  The two local lists [compliance] and [notes]
    are threaded through the two [if] statements as a pair. *)
Definition ComplianceAgent_run (researcher : ResearchAgent)
    (requirements : value) : M AgentResponse :=
  data_types <- py_get requirements "data_types" (VList []) ;;
  let compliance : list value := [] in
  let notes : list value := [] in
  has_payment <- py_in "payment_info" data_types ;;
  lists1 <- (if has_payment : bool
             then note <- query researcher "PCI-DSS" ;;
                  ret ((compliance ++ [VStr "PCI-DSS"])%list,
                       (notes ++ [VStr note])%list)
             else ret (compliance, notes)) ;;
  has_profiles <- py_in "user_profiles" data_types ;;
  lists2 <- (if has_profiles : bool
             then note <- query researcher "GDPR" ;;
                  ret ((fst lists1 ++ [VStr "GDPR"])%list,
                       (snd lists1 ++ [VStr note])%list)
             else ret lists1) ;;
  let output :=
    [ ("required_compliance", VList (or_none (fst lists2)));
      ("security_controls", security_controls);
      ("research_notes", VList (snd lists2)) ] in
  ret (mkAgentResponse "ComplianceAgent" output).

(** [ArchitectureAgent.run]. *)
Definition ArchitectureAgent_run (researcher : ResearchAgent)
    (context : value) : M AgentResponse :=
  base <- py_get context "constraints" (VList []) ;;
  low_ops <- py_in "low_ops" base ;;
  let arch_type := if low_ops : bool then "Serverless" else "Containers" in
  reference <- query researcher arch_type ;;
  security <- py_get context "security_controls" (VList []) ;;
  let architecture :=
    [ ("pattern", VStr arch_type);
      ("compute",
       VStr (if String.eqb arch_type "Serverless"
             then "Serverless Functions"
             else "Container Service"));
      ("database", VStr "Managed PostgreSQL");
      ("storage", VStr "Object Storage");
      ("network", VStr "API Gateway + CDN");
      ("security", security);
      ("research_reference", VStr reference) ] in
  ret (mkAgentResponse "ArchitectureAgent" architecture).

(** [CostEstimationAgent.run]: the argument is not read. *)
Definition CostEstimationAgent_run (architecture : value) : M AgentResponse :=
  let cost :=
    [ ("monthly_estimate_usd", VStr "~$120–150");
      ("tier", VStr "low-cost, scalable");
      ("optimizations",
       VList [VStr "CDN caching for static assets";
              VStr "Auto-suspend idle dev DBs";
              VStr "Serverless pay-per-use model"]) ] in
  ret (mkAgentResponse "CostEstimationAgent" cost).

(** [str(v)] for the float literal and [", ".join] for the risks. *)
Definition risks : list string :=
  ["Cold starts (serverless)"; "Vendor lock-in (managed DB)"].

Definition score : string := "9.1".

(** [ReviewAgent.run]: the argument is not read. *)
Definition ReviewAgent_run (context : value) : M AgentResponse :=
  ret (mkAgentResponse "ReviewAgent"
         [ ("overall_score", VFloat score);
           ("risks", VList (map VStr risks));
           ("summary",
            VStr ("Validated architecture with score " ++ score
                  ++ "/10. Risks: " ++ String.concat ", " risks)) ]).

(** ** Agents as the orchestrator sees them *)

(** The orchestrator only calls [agent.run(context)]. *)
Class Runnable (A : Type) : Type := run : A -> value -> M AgentResponse.

(** The agent classes of the module, with their constructor arguments. *)
Inductive Agent : Type :=
| RequirementsAgent
| ComplianceAgent (researcher : ResearchAgent)
| ArchitectureAgent (researcher : ResearchAgent)
| CostEstimationAgent
| ReviewAgent.

Definition agent_run (agent : Agent) (context : value) : M AgentResponse :=
  match agent with
  | RequirementsAgent => RequirementsAgent_run context
  | ComplianceAgent researcher => ComplianceAgent_run researcher context
  | ArchitectureAgent researcher => ArchitectureAgent_run researcher context
  | CostEstimationAgent => CostEstimationAgent_run context
  | ReviewAgent => ReviewAgent_run context
  end.

#[export] Instance Agent_Runnable : Runnable Agent := agent_run.

(** The name each class puts in its [AgentResponse]. *)
Definition agent_name (agent : Agent) : string :=
  match agent with
  | RequirementsAgent => "RequirementsAgent"
  | ComplianceAgent _ => "ComplianceAgent"
  | ArchitectureAgent _ => "ArchitectureAgent"
  | CostEstimationAgent => "CostEstimationAgent"
  | ReviewAgent => "ReviewAgent"
  end.

(** ** Orchestrator *)

Section Orchestrator.

Context {A : Type} `{Runnable A}.

Record Orchestrator : Type := mkOrchestrator { agents : list A }.

(** [Orchestrator.__init__]: the list is stored as it comes. *)
Definition Orchestrator_init (agents : list A) : M Orchestrator :=
  ret (mkOrchestrator agents).

(** The two locals of [Orchestrator.run]. *)
Record locals : Type := mkLocals {
  results : dict value;
  context : value
}.

(** [isinstance(context, dict)] decides between merging and replacing. *)
Definition next_context (context : value) (output : dict value) : value :=
  match context with
  | VDict c => VDict (dict_update c output)
  | _ => VDict output
  end.

(** One iteration of the [for] loop; the response is handed back with the
    updated locals.  [results] and the first dictionary context hold the
    very object the agent returned; no agent stores into its argument and
    the later contexts are fresh dictionaries, so the sharing is not
    observable and values are copied here. *)
Definition run_body (agent : A) (st : locals) : M (AgentResponse * locals) :=
  response <- run agent (context st) ;;
  ret (response,
       mkLocals (dict_set (results st) (name response)
                   (VDict (output response)))
                (next_context (context st) (output response))).

Fixpoint run_loop (agents : list A) (st : locals) : M locals :=
  match agents with
  | [] => ret st
  | agent :: rest =>
      step <- run_body agent st ;;
      run_loop rest (snd step)
  end.

(** The locals at loop entry: [results = {}], [context = problem]. *)
Definition run_entry (problem : string) : locals :=
  mkLocals [] (VStr problem).

(** [Orchestrator.run]: only [results] is returned. *)
Definition Orchestrator_run (self : Orchestrator) (problem : string)
  : M (dict value) :=
  st <- run_loop (agents self) (run_entry problem) ;;
  ret (results st).

(** The loop again, keeping the responses in the order produced. *)
Fixpoint run_loop_log (agents : list A) (st : locals)
  : M (list AgentResponse * locals) :=
  match agents with
  | [] => ret ([], st)
  | agent :: rest =>
      step <- run_body agent st ;;
      tail <- run_loop_log rest (snd step) ;;
      ret (fst step :: fst tail, snd tail)
  end.

End Orchestrator.

Arguments Orchestrator A : clear implicits.

(** The five agents in the order of the module's entry point.  (The entry
    point hands the researcher to the last two classes as well, which have no
    constructor taking one.) *)
Definition pipeline : list Agent :=
  [ RequirementsAgent;
    ComplianceAgent mkResearchAgent;
    ArchitectureAgent mkResearchAgent;
    CostEstimationAgent;
    ReviewAgent ].

(** ** What a run has done, in terms of the responses it produced *)

(** [results[response.name] = response.output]. *)
Definition store (results : dict value) (response : AgentResponse)
  : dict value :=
  dict_set results (name response) (VDict (output response)).

(** [results] and [context] after the responses [log], oldest first. *)
Definition stored (log : list AgentResponse) (results : dict value)
  : dict value :=
  fold_left store log results.

Definition merged (log : list AgentResponse) (context : value) : value :=
  fold_left (fun c response => next_context c (output response)) log context.

(** The value given to [k] by the last response of [log] that sets [k]. *)
Fixpoint last_set (k : string) (log : list AgentResponse) : option value :=
  match log with
  | [] => None
  | response :: rest =>
      match last_set k rest with
      | Some v => Some v
      | None => dict_get (output response) k
      end
  end.

(** The agents whose [run] calls [.get] on its argument. *)
Definition reads_context (agent : Agent) : bool :=
  match agent with
  | ComplianceAgent _ | ArchitectureAgent _ => true
  | RequirementsAgent | CostEstimationAgent | ReviewAgent => false
  end.

(** The first agent receives the problem text itself, a [str]. *)
Definition accepts_text (agents : list Agent) : bool :=
  match agents with
  | [] => true
  | first :: _ => negb (reads_context first)
  end.

Definition list_or_absent (c : dict value) (k : string) : bool :=
  match dict_get c k with
  | None | Some (VList _) => true
  | Some _ => false
  end.

(** The contexts the loop builds from the second iteration on. *)
Definition context_ok (context : value) : bool :=
  match context with
  | VDict c => list_or_absent c "data_types" && list_or_absent c "constraints"
  | _ => false
  end.

(** The [data_types] entry as [ComplianceAgent.run] reads it. *)
Definition data_types_of (requirements : dict value) : value :=
  match dict_get requirements "data_types" with
  | Some v => v
  | None => VList []
  end.

(** The class of an agent, as far as the keys it produces go. *)
Definition is_requirements (agent : Agent) : bool :=
  match agent with RequirementsAgent => true | _ => false end.

Definition is_compliance (agent : Agent) : bool :=
  match agent with ComplianceAgent _ => true | _ => false end.

(** The value [RequirementsAgent.run] gives to [data_types] and to
    [constraints]. *)
Definition requirements_data_types : value :=
  VList [VStr "user_profiles"; VStr "payment_info"; VStr "inventory"].

Definition requirements_constraints : value :=
  VList [VStr "scalable"; VStr "secure_payments"; VStr "low_ops"].

(** The values [in] does not accept on its right. *)
Definition is_number (v : value) : bool :=
  match v with
  | VInt _ | VFloat _ => true
  | _ => false
  end.

(** The [constraints] and [security_controls] entries as
    [ArchitectureAgent.run] reads them. *)
Definition constraints_of (context : dict value) : value :=
  match dict_get context "constraints" with
  | Some v => v
  | None => VList []
  end.

Definition security_controls_of (context : dict value) : value :=
  match dict_get context "security_controls" with
  | Some v => v
  | None => VList []
  end.

(** A line [ResearchAgent.query] prints for one of its stored topics. *)
Definition known_search_line (line : string) : Prop :=
  exists topic, In topic (keys simulated_results) /\
    line = "[ResearchAgent] Searching the web for: " ++ topic ++ " ...".

(** A computation that, whatever it returns or raises, leaves what was
    printed before in place and adds only search lines for stored topics. *)
Definition only_searches {A : Type} (m : M A) : Prop :=
  forall out r out', m out = (r, out') ->
    exists lines, out' = (out ++ lines)%list /\
                  Forall known_search_line lines.

(** Merging the entries of a returned mapping, in order, the way the loop
    merges the outputs it is handed: what a caller can do with the result of
    [Orchestrator.run]. *)
Definition merge_entries (problem : string) (res : dict value) : value :=
  fold_left
    (fun c entry =>
       match snd entry with
       | VDict o => next_context c o
       | _ => c
       end)
    res (VStr problem).

(** ** Data processing service: the two functions without external calls

    [Python_Exam/Fixed_Security_Issue_Python_code_unmarked.py]:
    [mask_credential] and [SecureDataProcessor.validate_webhook_data]. *)

Module Secure.

(** A count that fits an index on every build: [sys.maxsize] is
    [2^31 - 1] on a 32-bit build and [2^63 - 1] on a 64-bit one. *)
Definition index_max : Z := (2 ^ 31 - 1)%Z.

Section Mask.

(** A Python [str] is a sequence of characters; [mask_credential] only
    counts, slices and joins them, so the character type is left open. *)
Context {char : Type}.
Variable star : char.

(** [s * n]: no copy at all when [n <= 0].  This is the string Python
    builds while the count fits an index ([index_max]); beyond that the
    operator raises [OverflowError], and a count in between may exhaust
    memory.  The properties below keep the count within the index range. *)
Definition str_repeat (s : list char) (n : Z) : list char :=
  List.concat (repeat s (Z.to_nat n)).

(** [s[start:]]: a negative start counts from the end, and the start is
    clipped to the string. *)
Definition slice_from (s : list char) (start : Z) : list char :=
  let len := Z.of_nat (List.length s) in
  let first :=
    if (start <? 0)%Z then Z.max (start + len) 0 else Z.min start len in
  skipn (Z.to_nat first) s.

Definition mask_credential (credential : list char) (visible_chars : Z)
  : list char :=
  if match credential with [] => true | _ :: _ => false end
     || (Z.of_nat (List.length credential) <=? visible_chars)%Z
  then [star; star; star; star]
  else (str_repeat [star]
          (Z.of_nat (List.length credential) - visible_chars)
        ++ slice_from credential (- visible_chars))%list.

(** The call with the default [visible_chars=4]. *)
Definition mask_credential_default (credential : list char) : list char :=
  mask_credential credential 4.

End Mask.

#[local] Set Warnings "-register-all".

(** What a webhook payload can be ([Any]).  [bool] is a subclass of [int]
    in Python, with [True == 1] and [False == 0]. *)
Inductive payload : Type :=
| PNone
| PBool (b : bool)
| PInt (n : Z)
| PFloat (literal : string)
| PStr (s : string)
| PList (items : list payload)
| PDict (entries : list (string * payload)).

(** [isinstance(v, int)], with the integer it stands for. *)
Definition as_int (v : payload) : option Z :=
  match v with
  | PInt n => Some n
  | PBool true => Some 1%Z
  | PBool false => Some 0%Z
  | _ => None
  end.

(** [v == s] for a string [s]. *)
Definition is_str (s : string) (v : payload) : bool :=
  match v with
  | PStr t => String.eqb t s
  | _ => false
  end.

Definition allowed_actions : list string :=
  ["create_user"; "update_user"; "delete_user"].

(** [d.get(k)]: [None] for a missing key. *)
Definition get_or_none (d : dict payload) (k : string) : payload :=
  match dict_get d k with
  | Some v => v
  | None => PNone
  end.

(** [validate_webhook_data]; [self] is not used. *)
Definition validate_webhook_data {Self : Type} (self : Self)
    (webhook_data : payload) : bool :=
  match webhook_data with
  | PDict d =>
      if negb (dict_mem d "user_id") || negb (dict_mem d "action") then false
      else
        let user_id := get_or_none d "user_id" in
        if match as_int user_id with
           | None => true
           | Some n => (n <=? 0)%Z
           end
        then false
        else
          let action := get_or_none d "action" in
          if negb (existsb (fun allowed => is_str allowed action)
                     allowed_actions)
          then false
          else true
  | _ => false
  end.

End Secure.

(** ** Dictionary lemmas *)

Section DictLemmas.

Context {V : Type}.
Implicit Types (d o : dict V) (k : string) (v : V).

Lemma dict_get_set_eq d k v : dict_get (dict_set d k v) k = Some v.
Proof.
  induction d as [|[k' v'] d IH]; simpl.
  - now rewrite String.eqb_refl.
  - destruct (String.eqb k' k) eqn:E; simpl.
    + now rewrite String.eqb_refl.
    + now rewrite E.
Qed.

Lemma dict_get_set_ne d k k' v :
  k <> k' -> dict_get (dict_set d k v) k' = dict_get d k'.
Proof.
  intros Hne. induction d as [|[k0 v0] d IH]; simpl.
  - destruct (String.eqb_spec k k'); congruence.
  - destruct (String.eqb_spec k0 k) as [->|Hk]; simpl.
    + destruct (String.eqb_spec k k'); congruence.
    + now rewrite IH.
Qed.

Lemma dict_get_None d k : dict_get d k = None <-> ~ In k (keys d).
Proof.
  induction d as [|[k' v'] d IH]; simpl.
  - tauto.
  - destruct (String.eqb_spec k' k) as [->|Hk].
    + split; [discriminate | tauto].
    + rewrite IH. tauto.
Qed.

Lemma dict_get_Some_key d k v : dict_get d k = Some v -> In k (keys d).
Proof.
  intros Hg. destruct (in_dec string_dec k (keys d)) as [Hin|Hin]; trivial.
  apply dict_get_None in Hin. congruence.
Qed.

Lemma dict_get_Some_In d k v : dict_get d k = Some v -> In (k, v) d.
Proof.
  induction d as [|[k' v'] d IH]; simpl; [discriminate|].
  destruct (String.eqb_spec k' k) as [->|Hk].
  - intros [= ->]. now left.
  - intros Hg. right. now apply IH.
Qed.

Lemma dict_In_get d k v : wf d -> In (k, v) d -> dict_get d k = Some v.
Proof.
  unfold wf. induction d as [|[k' v'] d IH]; simpl; [tauto|].
  intros Hnd [Heq|Hin].
  - injection Heq as -> ->. now rewrite String.eqb_refl.
  - inversion Hnd as [|? ? Hnotin Hnd']; subst.
    destruct (String.eqb_spec k' k) as [->|Hk].
    + exfalso. apply Hnotin. change k with (fst (k, v)). now apply in_map.
    + now apply IH.
Qed.

Lemma dict_mem_In d k : dict_mem d k = true <-> In k (keys d).
Proof.
  unfold dict_mem. destruct (dict_get d k) eqn:E.
  - split; trivial. intros _. eapply dict_get_Some_key; eauto.
  - apply dict_get_None in E. split; [discriminate | tauto].
Qed.

Lemma dict_mem_existsb d k :
  existsb (String.eqb k) (keys d) = dict_mem d k.
Proof.
  unfold dict_mem. induction d as [|[k' v'] d IH]; simpl; trivial.
  rewrite (String.eqb_sym k k').
  destruct (String.eqb k' k); simpl; trivial.
Qed.

Lemma keys_set d k v :
  keys (dict_set d k v) =
  if dict_mem d k then keys d else (keys d ++ [k])%list.
Proof.
  unfold dict_mem. induction d as [|[k' v'] d IH]; simpl; trivial.
  destruct (String.eqb_spec k' k) as [->|Hk]; simpl; trivial.
  rewrite IH. now destruct (dict_get d k).
Qed.

Lemma keys_set_In d k v k' :
  In k' (keys (dict_set d k v)) <-> In k' (keys d) \/ k' = k.
Proof.
  rewrite keys_set. destruct (dict_mem d k) eqn:E.
  - apply dict_mem_In in E. split; [tauto|]. intros [?| ->]; trivial.
  - rewrite in_app_iff. simpl. intuition congruence.
Qed.

Lemma wf_set d k v : wf d -> wf (dict_set d k v).
Proof.
  unfold wf. intros Hd. rewrite keys_set. destruct (dict_mem d k) eqn:E; trivial.
  apply NoDup_app; trivial.
  - apply NoDup_cons; [tauto | constructor].
  - intros x Hx [<-|[]].
    apply dict_mem_In in Hx. congruence.
Qed.

Lemma keys_update_In d o k :
  In k (keys (dict_update d o)) <-> In k (keys d) \/ In k (keys o).
Proof.
  unfold dict_update. revert d.
  induction o as [|[k' v'] o IH]; intros d; simpl.
  - tauto.
  - rewrite IH, keys_set_In. intuition congruence.
Qed.

Lemma wf_update d o : wf d -> wf (dict_update d o).
Proof.
  unfold dict_update. revert d.
  induction o as [|[k' v'] o IH]; intros d Hd; simpl; trivial.
  apply IH. now apply wf_set.
Qed.

(** Right bias: a key of [o] takes the value [o] gives it. *)
Lemma dict_get_update d o k :
  wf o ->
  dict_get (dict_update d o) k =
  match dict_get o k with
  | Some v => Some v
  | None => dict_get d k
  end.
Proof.
  unfold dict_update, wf. revert d.
  induction o as [|[k' v'] o IH]; intros d Hnd; simpl; trivial.
  inversion Hnd as [|? ? Hnotin Hnd']; subst.
  rewrite (IH _ Hnd').
  destruct (String.eqb_spec k' k) as [->|Hk].
  - apply dict_get_None in Hnotin. rewrite Hnotin.
    apply dict_get_set_eq.
  - now rewrite dict_get_set_ne.
Qed.

End DictLemmas.

Lemma existsb_eq_str s (items : list value) :
  existsb (eq_str s) items = false <-> ~ In (VStr s) items.
Proof.
  induction items as [|x items IH]; simpl.
  - tauto.
  - rewrite orb_false_iff, IH. split.
    + intros [Hx Hn] [->|Hin]; [|tauto].
      simpl in Hx. now rewrite String.eqb_refl in Hx.
    + intros Hn. split; [|tauto].
      destruct x; simpl; trivial.
      destruct (String.eqb_spec s0 s) as [->|]; trivial.
      exfalso. apply Hn. now left.
Qed.

(** ** The monad *)

Lemma bind_ok {A B} (m : M A) (f : A -> M B) out a out' :
  m out = (inr a, out') -> bind m f out = f a out'.
Proof. unfold bind. now intros ->. Qed.

Lemma bind_raise {A B} (m : M A) (f : A -> M B) out e out' :
  m out = (inl e, out') -> bind m f out = (inl e, out').
Proof. unfold bind. now intros ->. Qed.

Lemma bind_inv {A B} (m : M A) (f : A -> M B) out b out2 :
  bind m f out = (inr b, out2) ->
  exists a out1, m out = (inr a, out1) /\ f a out1 = (inr b, out2).
Proof.
  unfold bind. destruct (m out) as [[e|a] out1]; [discriminate|].
  intros Hf. now exists a, out1.
Qed.

(** ** The loop of [Orchestrator.run], for any kind of agent *)

Section Loop.

Context {A : Type} `{Runnable A}.

Lemma run_body_inv agent st out response st' out' :
  run_body agent st out = (inr (response, st'), out') ->
  run agent (context st) out = (inr response, out') /\
  st' = mkLocals (store (results st) response)
                 (next_context (context st) (output response)).
Proof.
  unfold run_body. intros Hb.
  apply bind_inv in Hb as (r & out1 & Hr & Hret).
  unfold ret in Hret. injection Hret as <- <- <-. now split.
Qed.

(** Dropping the log of [run_loop_log] gives [run_loop]. *)
Lemma run_loop_log_erase agents st out :
  run_loop agents st out =
  match run_loop_log agents st out with
  | (inr (_, st'), out') => (inr st', out')
  | (inl e, out') => (inl e, out')
  end.
Proof.
  revert st out. induction agents as [|agent rest IH]; intros st out; simpl.
  - reflexivity.
  - unfold bind.
    destruct (run_body agent st out) as [[e|[response st1]] out1]; trivial.
    simpl. rewrite IH.
    destruct (run_loop_log rest st1 out1) as [[e|[log st2]] out2]; trivial.
Qed.

(** A completed loop has stored and merged one response per agent. *)
Lemma run_loop_log_spec agents st out log st' out' :
  run_loop_log agents st out = (inr (log, st'), out') ->
  length log = length agents /\
  results st' = stored log (results st) /\
  context st' = merged log (context st).
Proof.
  revert st out log st' out'.
  induction agents as [|agent rest IH]; intros st out log st' out'; simpl.
  - unfold ret. intros [= <- <- <-]. now repeat split.
  - intros Hb. apply bind_inv in Hb as ([response st1] & out1 & Hbody & Hb).
    apply bind_inv in Hb as ([log2 st2] & out2 & Hrest & Hret).
    unfold ret in Hret. simpl in Hret. injection Hret as <- <- <-.
    apply run_body_inv in Hbody as [_ ->].
    apply IH in Hrest as (Hlen & Hres & Hctx). simpl in *.
    repeat split; congruence.
Qed.

(** Running a sequence is running a prefix, then the rest from the locals
    the prefix left. *)
Lemma run_loop_app pre post st out :
  run_loop (pre ++ post) st out =
  bind (run_loop pre st) (fun st1 => run_loop post st1) out.
Proof.
  revert st out. induction pre as [|agent pre IH]; intros st out; simpl.
  - reflexivity.
  - unfold bind in *.
    destruct (run_body agent st out) as [[e|[response st1]] out1]; trivial.
Qed.

End Loop.

(** ** Keys and values of the merged context *)

Lemma merged_dict log c :
  exists c', merged log (VDict c) = VDict c' /\
    forall k, In k (keys c') <->
      In k (keys c) \/ exists f, In f log /\ In k (keys (output f)).
Proof.
  revert c. induction log as [|f log IH]; intros c; simpl.
  - exists c. split; trivial. intros k. split; [tauto|].
    intros [?|(f & [] & _)]; trivial.
  - destruct (IH (dict_update c (output f))) as (c' & Hm & Hk).
    exists c'. split; trivial. intros k. rewrite Hk, keys_update_In.
    split.
    + intros [[?|?]|(g & Hg & Hin)]; eauto.
    + intros [?|(g & [<-|Hg] & Hin)]; eauto.
Qed.

(** From the problem text on, the context holds exactly the keys the
    responses produced. *)
Lemma merged_text_keys log ctx :
  (forall c, ctx <> VDict c) -> log <> [] ->
  exists c', merged log ctx = VDict c' /\
    forall k, In k (keys c') <->
      exists f, In f log /\ In k (keys (output f)).
Proof.
  intros Hctx Hlog. destruct log as [|f log]; [congruence|]. simpl.
  assert (Hn : next_context ctx (output f) = VDict (output f)).
  { destruct ctx; trivial. now elim (Hctx entries). }
  rewrite Hn. destruct (merged_dict log (output f)) as (c' & Hm & Hk).
  exists c'. split; trivial. intros k. rewrite Hk. split.
  - intros [?|(g & Hg & Hin)]; eauto.
  - intros (g & [<-|Hg] & Hin); eauto.
Qed.

Lemma merged_dict_get log c k :
  Forall (fun f => wf (output f)) log ->
  exists c', merged log (VDict c) = VDict c' /\
    dict_get c' k =
    match last_set k log with
    | Some v => Some v
    | None => dict_get c k
    end.
Proof.
  intros Hwf. revert c. induction Hwf as [|f log Hf Hwf IH]; intros c; simpl.
  - now exists c.
  - destruct (IH (dict_update c (output f))) as (c' & Hm & Hg).
    exists c'. split; trivial. rewrite Hg.
    destruct (last_set k log); trivial.
    now apply dict_get_update.
Qed.

Lemma merged_text_get log ctx k :
  (forall c, ctx <> VDict c) -> log <> [] ->
  Forall (fun f => wf (output f)) log ->
  exists c', merged log ctx = VDict c' /\ dict_get c' k = last_set k log.
Proof.
  intros Hctx Hlog Hwf. destruct log as [|f log]; [congruence|]. simpl.
  assert (Hn : next_context ctx (output f) = VDict (output f)).
  { destruct ctx; trivial. now elim (Hctx entries). }
  rewrite Hn. inversion Hwf; subst.
  destruct (merged_dict_get log (output f) k) as (c' & Hm & Hg); trivial.
  now exists c'.
Qed.

Lemma last_set_app k log1 log2 :
  last_set k (log1 ++ log2) =
  match last_set k log2 with
  | Some v => Some v
  | None => last_set k log1
  end.
Proof.
  induction log1 as [|f log1 IH]; simpl.
  - now destruct (last_set k log2).
  - rewrite IH. now destruct (last_set k log2).
Qed.

Lemma last_set_none k log :
  (forall f, In f log -> dict_get (output f) k = None) ->
  last_set k log = None.
Proof.
  induction log as [|f log IH]; simpl; trivial.
  intros Hn. rewrite IH by auto. auto.
Qed.

(** ** Keys of [results] *)

Lemma keys_stored log results0 :
  keys (stored log results0) =
  (keys results0 ++ first_seen (keys results0) (map name log))%list.
Proof.
  revert results0. induction log as [|f log IH]; intros results0; simpl.
  - now rewrite app_nil_r.
  - rewrite IH. unfold store at 1 2. rewrite keys_set, dict_mem_existsb.
    destruct (dict_mem results0 (name f)); trivial.
    now rewrite <- app_assoc.
Qed.

Lemma first_seen_NoDup seen ks :
  NoDup ks -> (forall k, In k ks -> ~ In k seen) -> first_seen seen ks = ks.
Proof.
  intros Hnd. revert seen. induction Hnd as [|k ks Hk Hnd IH]; intros seen Hs.
  - reflexivity.
  - simpl. destruct (existsb (String.eqb k) seen) eqn:E.
    + apply existsb_exists in E as (x & Hx & Hkx).
      apply String.eqb_eq in Hkx as <-. elim (Hs k); simpl; auto.
    + f_equal. apply IH. intros k' Hk' Hin.
      apply in_app_iff in Hin as [Hin|[<-|[]]]; [|tauto].
      apply (Hs k'); simpl; auto.
Qed.

Lemma stored_get log results0 k v :
  dict_get (stored log results0) k = Some v ->
  dict_get results0 k = Some v \/
  exists f, In f log /\ name f = k /\ v = VDict (output f).
Proof.
  revert results0. induction log as [|f log IH]; intros results0; simpl.
  - now left.
  - intros Hg. apply IH in Hg as [Hg|(g & Hin & Hn & Hv)]; [|eauto 6].
    unfold store in Hg. destruct (string_dec (name f) k) as [<-|Hne].
    + rewrite dict_get_set_eq in Hg. injection Hg as <-. eauto 6.
    + rewrite dict_get_set_ne in Hg; auto.
Qed.

(** ** The agents one by one *)

Ltac wf_keys :=
  unfold wf, keys; simpl;
  repeat (apply NoDup_cons; [simpl; intuition discriminate|]);
  apply NoDup_nil.

Lemma has_surrogate_tail (s tail : string) :
  surrogate_second tail = false ->
  has_surrogate (s ++ tail) = has_surrogate s || has_surrogate tail.
Proof.
  intros Htail. induction s as [|c s IH]; simpl; trivial.
  rewrite IH, orb_assoc. f_equal. f_equal. f_equal.
  destruct s; simpl; trivial.
Qed.

(** The search line can be encoded exactly when the topic can. *)
Lemma search_line_surrogate (topic : string) :
  has_surrogate ("[ResearchAgent] Searching the web for: " ++ topic ++ " ...")
  = has_surrogate topic.
Proof.
  change (has_surrogate (topic ++ " ...") = has_surrogate topic).
  rewrite has_surrogate_tail by reflexivity. apply orb_false_r.
Qed.

Lemma query_raises self topic out :
  has_surrogate topic = true ->
  query self topic out =
  (inl (UnicodeEncodeError
          ("[ResearchAgent] Searching the web for: " ++ topic ++ " ...")),
   out).
Proof.
  intros Hs. unfold query, bind, print.
  now rewrite search_line_surrogate, Hs.
Qed.

Lemma query_ok self topic out :
  has_surrogate topic = false ->
  query self topic out =
  (inr (match dict_get simulated_results topic with
        | Some summary => summary
        | None => no_info topic
        end),
   (out ++ [("[ResearchAgent] Searching the web for: " ++ topic
             ++ " ...")%string])%list).
Proof.
  intros Hs. unfold query, bind, print.
  now rewrite search_line_surrogate, Hs.
Qed.

Lemma py_get_dict c key default out :
  py_get (VDict c) key default out =
  (inr (match dict_get c key with Some v => v | None => default end), out).
Proof. reflexivity. Qed.

(** One step of a computation whose first part returns. *)
Ltac run_bind :=
  erewrite bind_ok by
    first [ apply py_get_dict
          | apply query_ok; reflexivity
          | (erewrite bind_ok by (apply query_ok; reflexivity)); reflexivity
          | reflexivity ].

Lemma py_get_inv obj key default out v out' :
  py_get obj key default out = (inr v, out') -> exists c, obj = VDict c.
Proof. destruct obj; try discriminate. eauto. Qed.

(** The name and the keys of a response depend on the class alone. *)
Lemma agent_run_name_keys agent ctx out f out' :
  agent_run agent ctx out = (inr f, out') ->
  name f = agent_name agent /\
  keys (output f) = match agent with
    | RequirementsAgent =>
        ["users_per_day"; "features"; "data_types"; "constraints"]
    | ComplianceAgent _ =>
        ["required_compliance"; "security_controls"; "research_notes"]
    | ArchitectureAgent _ =>
        ["pattern"; "compute"; "database"; "storage"; "network"; "security";
         "research_reference"]
    | CostEstimationAgent => ["monthly_estimate_usd"; "tier"; "optimizations"]
    | ReviewAgent => ["overall_score"; "risks"; "summary"]
    end.
Proof.
  destruct agent; simpl.
  - intros [= <- <-]. now split.
  - unfold ComplianceAgent_run. intros Hr.
    apply bind_inv in Hr as (dt & o1 & _ & Hr).
    apply bind_inv in Hr as (b1 & o2 & _ & Hr).
    apply bind_inv in Hr as (l1 & o3 & _ & Hr).
    apply bind_inv in Hr as (b2 & o4 & _ & Hr).
    apply bind_inv in Hr as (l2 & o5 & _ & Hr).
    injection Hr as <- <-. now split.
  - unfold ArchitectureAgent_run. intros Hr.
    apply bind_inv in Hr as (base & o1 & _ & Hr).
    apply bind_inv in Hr as (b1 & o2 & _ & Hr).
    apply bind_inv in Hr as (ref & o3 & _ & Hr).
    apply bind_inv in Hr as (sec & o4 & _ & Hr).
    injection Hr as <- <-. now split.
  - intros [= <- <-]. now split.
  - intros [= <- <-]. now split.
Qed.

Lemma agent_run_wf agent ctx out f out' :
  agent_run agent ctx out = (inr f, out') -> wf (output f).
Proof.
  intros Hr. apply agent_run_name_keys in Hr as [_ Hk].
  unfold wf. rewrite Hk. destruct agent; wf_keys.
Qed.

(** An agent that does not call [.get] returns whatever it is given. *)
Lemma agent_run_text agent ctx out :
  reads_context agent = false ->
  exists f, agent_run agent ctx out = (inr f, out) /\
            context_ok (VDict (output f)) = true.
Proof.
  destruct agent; simpl; try discriminate; intros _; eexists; split;
    reflexivity.
Qed.

(** On a context of the loop every agent returns, and the merged context is
    again one of the loop. *)
Lemma agent_run_ok agent ctx out :
  context_ok ctx = true ->
  exists f out', agent_run agent ctx out = (inr f, out') /\
                 context_ok (next_context ctx (output f)) = true.
Proof.
  destruct ctx as [| | | |c]; simpl; try discriminate.
  intros Hok. apply andb_prop in Hok as [Hdt Hcs].
  assert (Hkeep : forall f out',
    agent_run agent (VDict c) out = (inr f, out') ->
    reads_context agent = true \/ agent = CostEstimationAgent
      \/ agent = ReviewAgent ->
    list_or_absent (dict_update c (output f)) "data_types"
      && list_or_absent (dict_update c (output f)) "constraints" = true).
  { intros f out' Hr Hcls.
    pose proof (agent_run_wf _ _ _ _ _ Hr) as Hwf.
    apply agent_run_name_keys in Hr as [_ Hk].
    unfold list_or_absent. rewrite !dict_get_update by trivial.
    assert (Hn : forall k, k = "data_types" \/ k = "constraints" ->
                           dict_get (output f) k = None).
    { intros k Hkk. apply dict_get_None. rewrite Hk.
      destruct agent; simpl in Hcls;
        destruct Hcls as [?|[?|?]]; try discriminate;
        destruct Hkk as [-> | ->]; simpl; intuition discriminate. }
    rewrite !Hn by auto. unfold list_or_absent in Hdt, Hcs.
    now rewrite Hdt, Hcs. }
  destruct agent.
  - do 2 eexists. split; [reflexivity|].
    unfold next_context, context_ok, list_or_absent.
    rewrite !dict_get_update by wf_keys. reflexivity.
  - assert (Hr : exists f out',
      agent_run (ComplianceAgent researcher) (VDict c) out = (inr f, out')).
    { simpl. unfold ComplianceAgent_run.
      erewrite bind_ok by apply py_get_dict.
      unfold list_or_absent in Hdt.
      destruct (dict_get c "data_types") as [[| | |items|]|];
        try discriminate; simpl py_in;
        run_bind;
        match goal with |- context [if ?b then _ else _] => destruct b end;
        run_bind;
        run_bind;
        match goal with |- context [if ?b then _ else _] => destruct b end;
        run_bind; unfold ret; eauto. }
    destruct Hr as (f & out' & Hr). exists f, out'. split; trivial.
    eapply Hkeep; eauto.
  - assert (Hr : exists f out',
      agent_run (ArchitectureAgent researcher) (VDict c) out = (inr f, out')).
    { simpl. unfold ArchitectureAgent_run.
      erewrite bind_ok by apply py_get_dict.
      unfold list_or_absent in Hcs.
      destruct (dict_get c "constraints") as [[| | |items|]|];
        try discriminate; simpl py_in;
        run_bind;
        match goal with |- context [if ?b then _ else _] => destruct b end;
        run_bind;
        run_bind; unfold ret; eauto. }
    destruct Hr as (f & out' & Hr). exists f, out'. split; trivial.
    eapply Hkeep; eauto.
  - do 2 eexists. split; [reflexivity|]. eapply Hkeep; eauto. reflexivity.
  - do 2 eexists. split; [reflexivity|]. eapply Hkeep; eauto. reflexivity.
Qed.

(** ** Runs over the agent classes of the module *)

Lemma run_loop_log_names agents st out log st' out' :
  run_loop_log agents st out = (inr (log, st'), out') ->
  map name log = map agent_name agents /\
  Forall (fun f => wf (output f)) log.
Proof.
  revert st out log st' out'.
  induction agents as [|agent rest IH]; intros st out log st' out'; simpl.
  - intros [= <- <- <-]. now split.
  - intros Hb. apply bind_inv in Hb as ([response st1] & out1 & Hbody & Hb).
    apply bind_inv in Hb as ([log2 st2] & out2 & Hrest & Hret).
    injection Hret as <- <- <-.
    apply run_body_inv in Hbody as [Hrun _].
    apply IH in Hrest as [Hnames Hwf]. simpl. split.
    + f_equal; trivial. now apply agent_run_name_keys in Hrun.
    + constructor; trivial. eapply agent_run_wf; eauto.
Qed.

(** From a context of the loop, the loop runs to its end. *)
Lemma run_loop_log_ok agents st out :
  context_ok (context st) = true ->
  exists log st' out', run_loop_log agents st out = (inr (log, st'), out').
Proof.
  revert st out. induction agents as [|agent rest IH]; intros st out Hok; simpl.
  - now exists [], st, out.
  - destruct (agent_run_ok agent (context st) out Hok) as (f & out1 & Hr & Hok').
    unfold run_body.
    erewrite bind_ok; [|erewrite bind_ok by exact Hr; reflexivity].
    simpl snd.
    edestruct IH as (log & st' & out' & Hrest); [|erewrite bind_ok by exact Hrest].
    + exact Hok'.
    + simpl. unfold ret. eauto.
Qed.

(** A sequence whose first agent takes the problem text runs to its end. *)
Lemma run_loop_log_total agents problem out :
  accepts_text agents = true ->
  exists log st out',
    run_loop_log agents (run_entry problem) out = (inr (log, st), out').
Proof.
  destruct agents as [|agent rest]; simpl; intros Hacc.
  - now exists [], (run_entry problem), out.
  - apply negb_true_iff in Hacc.
    destruct (agent_run_text agent (VStr problem) out Hacc) as (f & Hr & Hok).
    unfold run_body.
    erewrite bind_ok; [|erewrite bind_ok by exact Hr; reflexivity].
    edestruct run_loop_log_ok as (log & st' & out' & Hrest);
      [|erewrite bind_ok by exact Hrest].
    + exact Hok.
    + simpl. unfold ret. eauto.
Qed.

Lemma Orchestrator_run_log (agents : list Agent) problem out :
  Orchestrator_run (mkOrchestrator agents) problem out =
  match run_loop_log agents (run_entry problem) out with
  | (inr (_, st), out') => (inr (results st), out')
  | (inl e, out') => (inl e, out')
  end.
Proof.
  unfold Orchestrator_run, bind. simpl. rewrite run_loop_log_erase.
  now destruct (run_loop_log agents (run_entry problem) out)
    as [[e|[log st]] out'].
Qed.

(** The keys of the returned mapping: agent names in order of first run. *)
Lemma Orchestrator_run_keys (agents : list Agent) problem out :
  accepts_text agents = true ->
  exists res out',
    Orchestrator_run (mkOrchestrator agents) problem out = (inr res, out') /\
    keys res = first_seen [] (map agent_name agents).
Proof.
  intros Hacc.
  destruct (run_loop_log_total agents problem out Hacc)
    as (log & st & out' & Hrun).
  exists (results st), out'. rewrite Orchestrator_run_log, Hrun.
  destruct (run_loop_log_spec _ _ _ _ _ _ Hrun) as (_ & Hres & _).
  destruct (run_loop_log_names _ _ _ _ _ _ Hrun) as [Hn _].
  split; trivial. rewrite Hres, keys_stored, Hn. reflexivity.
Qed.

Lemma NoDup_agent_names_pipeline : NoDup (map agent_name pipeline).
Proof.
  simpl. repeat (apply NoDup_cons; [simpl; intuition discriminate|]).
  apply NoDup_nil.
Defined.

(** ** The code on a few inputs *)

Example query_known :
  query mkResearchAgent "GDPR" [] =
  (inr "Retrieved GDPR checklist from official EU documentation.",
   ["[ResearchAgent] Searching the web for: GDPR ..."]).
Proof. reflexivity. Qed.

Example query_unknown :
  fst (query mkResearchAgent "gdpr" []) =
  inr "No relevant info found for 'gdpr'.".
Proof. reflexivity. Qed.

Example pipeline_keys :
  match Orchestrator_run (mkOrchestrator pipeline) "shop" [] with
  | (inr res, out) =>
      keys res = ["RequirementsAgent"; "ComplianceAgent"; "ArchitectureAgent";
                  "CostEstimationAgent"; "ReviewAgent"] /\
      out = ["[ResearchAgent] Searching the web for: PCI-DSS ...";
             "[ResearchAgent] Searching the web for: GDPR ...";
             "[ResearchAgent] Searching the web for: Serverless ..."]
  | (inl _, _) => False
  end.
Proof. cbv. split; reflexivity. Qed.

Example pipeline_final_context_keys :
  match run_loop pipeline (run_entry "shop") [] with
  | (inr st, _) =>
      match context st with
      | VDict c =>
          keys c =
          ["users_per_day"; "features"; "data_types"; "constraints";
           "required_compliance"; "security_controls"; "research_notes";
           "pattern"; "compute"; "database"; "storage"; "network"; "security";
           "research_reference"; "monthly_estimate_usd"; "tier";
           "optimizations"; "overall_score"; "risks"; "summary"]
      | _ => False
      end
  | (inl _, _) => False
  end.
Proof. cbv. reflexivity. Qed.

Example compliance_on_number :
  ComplianceAgent_run mkResearchAgent (VDict [("data_types", VInt 3)]) []
  = (inl TypeError, []).
Proof. reflexivity. Qed.

Example architecture_without_constraints :
  match ArchitectureAgent_run mkResearchAgent (VDict []) [] with
  | (inr f, _) => dict_get (output f) "pattern" = Some (VStr "Containers")
  | (inl _, _) => False
  end.
Proof. reflexivity. Qed.

Example substring_test :
  str_contains "card payment_info v2" "payment_info" = true /\
  str_contains "payment" "payment_info" = false.
Proof. split; reflexivity. Qed.

(** ** Properties of [Orchestrator.run] *)

(** C1, as stated, does not hold: one entry per configured stage, whatever
    the configured sequence.  Two [ReviewAgent]s store under the same name,
    so the run over two stages returns a single entry. *)
Lemma Orchestrator_run_repeated_name :
  ~ (forall (agents : list Agent) (problem : string) (out : stdout),
       problem <> "" ->
       exists res out',
         Orchestrator_run (mkOrchestrator agents) problem out = (inr res, out')
         /\ keys res = map agent_name agents).
Proof.
  intros Hall.
  destruct (Hall [ReviewAgent; ReviewAgent] "shop" []) as (res & out' & Hr & Hk).
  - discriminate.
  - vm_compute in Hr. injection Hr as <- <-. discriminate Hk.
Qed.

(** C1, amended: for every problem string, over a sequence of agents with
    pairwise distinct names whose first agent does not call [.get] on its
    argument, [Orchestrator.run] returns a mapping with exactly one entry per
    configured agent, keyed by the agent's name, in the configured order. *)
Theorem Orchestrator_run_entries (agents : list Agent) problem out :
  NoDup (map agent_name agents) ->
  accepts_text agents = true ->
  exists res out',
    Orchestrator_run (mkOrchestrator agents) problem out = (inr res, out') /\
    keys res = map agent_name agents /\
    length res = length agents.
Proof.
  intros Hnd Hacc.
  destruct (run_loop_log_total agents problem out Hacc)
    as (log & st & out' & Hrun).
  exists (results st), out'. rewrite Orchestrator_run_log, Hrun.
  assert (Hk : keys (results st) = map agent_name agents).
  { destruct (run_loop_log_spec _ _ _ _ _ _ Hrun) as (_ & Hres & _).
    destruct (run_loop_log_names _ _ _ _ _ _ Hrun) as [Hn _].
    rewrite Hres, keys_stored, Hn. simpl.
    apply first_seen_NoDup; auto. }
  repeat split; trivial.
  rewrite <- (length_map fst (results st)). fold (keys (results st)).
  rewrite Hk. apply length_map.
Qed.

Lemma Orchestrator_run_entries_witness :
  exists res out',
    Orchestrator_run (mkOrchestrator pipeline) "shop" [] = (inr res, out') /\
    keys res = map agent_name pipeline /\
    length res = length pipeline.
Proof.
  apply (Orchestrator_run_entries pipeline "shop" []).
  - exact NoDup_agent_names_pipeline.
  - reflexivity.
Defined.

(** C2, as stated, does not hold: the value returned for the pipeline of the
    module is the per-stage mapping alone.  It has no [final_context] entry,
    none of its entries is the merged context the loop ends with, and it is
    not that context itself. *)
Lemma Orchestrator_run_no_final_context :
  exists res st out',
    Orchestrator_run (mkOrchestrator pipeline) "shop" [] = (inr res, out') /\
    run_loop pipeline (run_entry "shop") [] = (inr st, out') /\
    dict_get res "final_context" = None /\
    (forall k, dict_get res k <> Some (context st)) /\
    VDict res <> context st.
Proof.
  do 3 eexists. split; [cbv; reflexivity|]. split; [cbv; reflexivity|].
  split; [reflexivity|]. split.
  - intros k. cbn [dict_get context].
    repeat match goal with
    | |- context [String.eqb ?a k] => destruct (String.eqb a k)
    end; discriminate.
  - discriminate.
Qed.

(** C2, amended: for every problem string, over a sequence whose first agent
    does not call [.get] on its argument, [Orchestrator.run] returns the
    per-stage mapping and nothing beside it: one entry per distinct agent
    name, in order of first execution, each holding the output of an agent of
    that name, and no [final_context] entry. *)
Theorem Orchestrator_run_returns_results (agents : list Agent) problem out :
  accepts_text agents = true ->
  exists log st out',
    run_loop_log agents (run_entry problem) out = (inr (log, st), out') /\
    Orchestrator_run (mkOrchestrator agents) problem out
      = (inr (results st), out') /\
    context st = merged log (VStr problem) /\
    keys (results st) = first_seen [] (map agent_name agents) /\
    dict_get (results st) "final_context" = None /\
    (forall k v, dict_get (results st) k = Some v ->
       exists f, In f log /\ name f = k /\ v = VDict (output f)).
Proof.
  intros Hacc.
  destruct (run_loop_log_total agents problem out Hacc)
    as (log & st & out' & Hrun).
  exists log, st, out'. rewrite Orchestrator_run_log, Hrun.
  destruct (run_loop_log_spec _ _ _ _ _ _ Hrun) as (_ & Hres & Hctx).
  destruct (run_loop_log_names _ _ _ _ _ _ Hrun) as [Hn _].
  simpl in Hres, Hctx.
  assert (Hget : forall k v, dict_get (results st) k = Some v ->
            exists f, In f log /\ name f = k /\ v = VDict (output f)).
  { intros k v Hg. rewrite Hres in Hg.
    apply stored_get in Hg as [Hg|Hg]; [discriminate | trivial]. }
  repeat split; trivial.
  - rewrite Hres, keys_stored, Hn. reflexivity.
  - destruct (dict_get (results st) "final_context") as [v|] eqn:Hg; trivial.
    apply Hget in Hg as (f & Hin & Hname & _).
    assert (Hf : In (name f) (map agent_name agents)).
    { rewrite <- Hn. now apply in_map. }
    apply in_map_iff in Hf as (a & Ha & _). rewrite Hname in Ha.
    destruct a; discriminate.
Qed.

Lemma Orchestrator_run_returns_results_witness :
  exists log st out',
    run_loop_log pipeline (run_entry "shop") [] = (inr (log, st), out') /\
    Orchestrator_run (mkOrchestrator pipeline) "shop" []
      = (inr (results st), out') /\
    context st = merged log (VStr "shop") /\
    keys (results st) = first_seen [] (map agent_name pipeline) /\
    dict_get (results st) "final_context" = None /\
    (forall k v, dict_get (results st) k = Some v ->
       exists f, In f log /\ name f = k /\ v = VDict (output f)).
Proof.
  apply (Orchestrator_run_returns_results pipeline "shop" []). reflexivity.
Defined.

(** C3, as stated, does not hold: the context is seeded with the problem
    text, a string, not with the mapping [{"problem": p}], and the context
    the second stage of [RequirementsAgent, ReviewAgent] receives has no
    [problem] key. *)
Lemma context_without_problem_key :
  context (run_entry "shop") <> VDict [("problem", VStr "shop")] /\
  exists st c,
    run_loop [RequirementsAgent] (run_entry "shop") [] = (inr st, []) /\
    run_loop [RequirementsAgent; ReviewAgent] (run_entry "shop") []
      = run_loop [ReviewAgent] st [] /\
    context st = VDict c /\
    ~ In "problem" (keys c).
Proof.
  split; [discriminate|].
  do 2 eexists. split; [cbv; reflexivity|]. split; [reflexivity|].
  split; [reflexivity|]. simpl. intuition discriminate.
Qed.

(** C3, amended: [Orchestrator.run] seeds the context with the problem text
    itself, which is what the first stage receives; before every later stage
    executes, the context is a mapping whose keys are exactly the field keys
    produced by the stages that ran earlier in that run. *)
Theorem context_before_stage {A : Type} `{Runnable A}
    (pre : list A) (agent : A) (post : list A) problem out log st out1 :
  run_loop_log pre (run_entry problem) out = (inr (log, st), out1) ->
  run_loop (pre ++ agent :: post) (run_entry problem) out
    = bind (run_body agent st) (fun step => run_loop post (snd step)) out1 /\
  (pre = [] -> context st = VStr problem) /\
  (pre <> [] ->
   exists c, context st = VDict c /\
     forall k, In k (keys c) <->
       exists f, In f log /\ In k (keys (output f))).
Proof.
  intros Hrun. split; [|split].
  - rewrite run_loop_app. unfold bind at 1.
    rewrite run_loop_log_erase, Hrun. reflexivity.
  - intros ->. simpl in Hrun. now injection Hrun as <- <- <-.
  - intros Hpre.
    destruct (run_loop_log_spec _ _ _ _ _ _ Hrun) as (Hlen & _ & Hctx).
    rewrite Hctx. apply merged_text_keys.
    + discriminate.
    + destruct log; [|discriminate]. destruct pre; [congruence|discriminate].
Qed.

Lemma context_before_stage_witness :
  exists log st out1,
    run_loop_log [RequirementsAgent] (run_entry "shop") []
      = (inr (log, st), out1) /\
    run_loop ([RequirementsAgent] ++ ReviewAgent :: []) (run_entry "shop") []
      = bind (run_body ReviewAgent st)
          (fun step => run_loop [] (snd step)) out1 /\
    ([RequirementsAgent] = [] -> context st = VStr "shop") /\
    ([RequirementsAgent] <> [] ->
     exists c, context st = VDict c /\
       forall k, In k (keys c) <->
         exists f, In f log /\ In k (keys (output f))).
Proof.
  do 3 eexists. split; [cbv; reflexivity|].
  apply (context_before_stage [RequirementsAgent] ReviewAgent [] "shop" []).
  reflexivity.
Defined.

(** C4: [Orchestrator.run] has no handler around [agent.run].  When the
    first agent is a [ComplianceAgent] its [.get] on the problem text raises
    [AttributeError]; the exception leaves [run], no default response is
    stored and none of the remaining agents runs. *)
Theorem Orchestrator_run_raises researcher (rest : list Agent) problem out :
  Orchestrator_run (mkOrchestrator (ComplianceAgent researcher :: rest))
    problem out = (inl AttributeError, out).
Proof. reflexivity. Qed.

(** C5, as stated, does not hold: construction does not fail on an empty
    sequence, nor on one with a repeated name. *)
Lemma Orchestrator_init_no_check :
  ~ (forall (agents : list Agent) (out : stdout),
       agents = [] \/ ~ NoDup (map agent_name agents) ->
       exists e out', Orchestrator_init agents out = (inl e, out')).
Proof.
  intros Hall. destruct (Hall [] []) as (e & out' & Hinit); [now left|].
  discriminate Hinit.
Qed.

(** C5, amended: [Orchestrator.__init__] never fails and checks nothing: it
    stores any sequence, and [run] is accepted on it.  On an empty sequence
    [run] returns an empty mapping; on a sequence whose first agent does not
    call [.get] on its argument it returns one entry per distinct agent name,
    in order of first occurrence, so agents sharing a name share an entry. *)
Theorem Orchestrator_init_stores_any (agents : list Agent) out :
  Orchestrator_init agents out = (inr (mkOrchestrator agents), out) /\
  (agents = [] ->
   forall problem out1,
     Orchestrator_run (mkOrchestrator agents) problem out1 = (inr [], out1)) /\
  (accepts_text agents = true ->
   forall problem out1, exists res out2,
     Orchestrator_run (mkOrchestrator agents) problem out1 = (inr res, out2) /\
     keys res = first_seen [] (map agent_name agents)).
Proof.
  split; [reflexivity|]. split.
  - intros -> problem out1. reflexivity.
  - intros Hacc problem out1.
    destruct (Orchestrator_run_keys agents problem out1 Hacc)
      as (res & out2 & Hr & Hk).
    now exists res, out2.
Qed.

Lemma Orchestrator_init_stores_any_witness :
  Orchestrator_init ([] : list Agent) [] = (inr (mkOrchestrator []), []) /\
  Orchestrator_run (mkOrchestrator ([] : list Agent)) "shop" [] = (inr [], [])
  /\
  exists res out2,
    Orchestrator_run (mkOrchestrator [ReviewAgent; ReviewAgent]) "shop" []
      = (inr res, out2) /\
    keys res = ["ReviewAgent"].
Proof.
  destruct (Orchestrator_init_stores_any [] []) as (Hinit & Hempty & _).
  destruct (Orchestrator_init_stores_any [ReviewAgent; ReviewAgent] [])
    as (_ & _ & Hrepeat).
  split; [exact Hinit|]. split.
  - apply Hempty. reflexivity.
  - apply Hrepeat. reflexivity.
Defined.

(** C8: right-biased merge.  In every run, when two responses produced one
    after the other both set the key [k], and the later of the two is the
    last response of the run to set [k], the context the loop ends with holds
    for [k] the value of the later response. *)
Theorem merge_right_biased (agents : list Agent) problem out log st out'
    before f1 between f2 after k v :
  run_loop_log agents (run_entry problem) out = (inr (log, st), out') ->
  log = (before ++ f1 :: between ++ f2 :: after)%list ->
  In k (keys (output f1)) ->
  dict_get (output f2) k = Some v ->
  (forall f, In f after -> dict_get (output f) k = None) ->
  exists c, context st = VDict c /\ dict_get c k = Some v.
Proof.
  intros Hrun Hlog _ Hf2 Hafter.
  destruct (run_loop_log_spec _ _ _ _ _ _ Hrun) as (_ & _ & Hctx).
  destruct (run_loop_log_names _ _ _ _ _ _ Hrun) as [_ Hwf].
  simpl in Hctx.
  destruct (merged_text_get log (VStr problem) k) as (c & Hm & Hg); trivial.
  - discriminate.
  - rewrite Hlog. now destruct before.
  - exists c. split; [congruence|].
    rewrite Hg, Hlog, last_set_app. simpl. rewrite last_set_app. simpl.
    now rewrite (last_set_none k after Hafter), Hf2.
Qed.

Lemma merge_right_biased_witness :
  exists st out',
    run_loop [ReviewAgent; ComplianceAgent mkResearchAgent; RequirementsAgent;
              ComplianceAgent mkResearchAgent] (run_entry "shop") []
      = (inr st, out') /\
    exists c, context st = VDict c /\
      dict_get c "required_compliance"
        = Some (VList [VStr "PCI-DSS"; VStr "GDPR"]).
Proof.
  do 2 eexists. split; [cbv; reflexivity|].
  eapply (merge_right_biased
            [ReviewAgent; ComplianceAgent mkResearchAgent; RequirementsAgent;
             ComplianceAgent mkResearchAgent] "shop" [] _ _ _
            [_] _ [_] _ [] "required_compliance").
  - cbv. reflexivity.
  - reflexivity.
  - simpl. left. reflexivity.
  - reflexivity.
  - intros f [].
Defined.

(** ** Properties of the agents *)

(** C6, as stated, does not hold: [query] prints the topic before it
    returns, and for the topic made of the lone surrogate U+D800 the line
    cannot be encoded: [print] raises [UnicodeEncodeError], nothing is
    printed and no string is returned. *)
Lemma query_surrogate_topic :
  query mkResearchAgent lone_surrogate []
  = (inl (UnicodeEncodeError
            ("[ResearchAgent] Searching the web for: " ++ lone_surrogate
             ++ " ...")), []) /\
  ~ (forall (topic : string) (out : stdout),
       exists summary out',
         query mkResearchAgent topic out = (inr summary, out')).
Proof.
  split; [reflexivity|].
  intros Hall. destruct (Hall lone_surrogate []) as (summary & out' & Hq).
  discriminate Hq.
Qed.

(** C6, amended: for every topic that standard output can encode (one
    without a lone surrogate; the empty string is one), [ResearchAgent.query]
    returns without raising a non-empty string: the stored entry when the
    topic is a key of the fixed mapping, and otherwise the fallback text,
    which quotes the topic.  The string returned depends on the topic alone:
    asking again, whatever was printed in between, returns the same. *)
Theorem query_encodable_topic (self : ResearchAgent) (topic : string)
    (out : stdout) :
  has_surrogate topic = false ->
  exists summary out',
    query self topic out = (inr summary, out') /\
    summary <> "" /\
    (forall entry, In (topic, entry) simulated_results -> summary = entry) /\
    (~ In topic (keys simulated_results) ->
     summary = "No relevant info found for '" ++ topic ++ "'.") /\
    (forall self2 out2, fst (query self2 topic out2) = inr summary) /\
    fst (bind (query self topic) (fun _ => query self topic) out)
      = inr summary.
Proof.
  intros Henc.
  do 2 eexists. split; [now apply query_ok|].
  assert (Hwf : wf simulated_results) by wf_keys.
  split; [|split; [|split; [|split]]].
  - destruct (dict_get simulated_results topic) as [e|] eqn:Hg.
    + apply dict_get_Some_In in Hg. simpl in Hg.
      destruct Hg as [Hg|[Hg|[Hg|[Hg|[]]]]]; injection Hg as <- <-;
        discriminate.
    + discriminate.
  - intros entry Hin. now rewrite (dict_In_get _ _ _ Hwf Hin).
  - intros Hnot. apply dict_get_None in Hnot. now rewrite Hnot.
  - intros self2 out2. now rewrite query_ok.
  - erewrite bind_ok by (now apply query_ok). now rewrite query_ok.
Qed.

Lemma query_encodable_topic_witness :
  exists out',
    query mkResearchAgent "PCI-DSS" []
      = (inr "Found compliance guidelines from AWS and GCP docs.", out') /\
    exists out2,
      query mkResearchAgent "" [] = (inr "No relevant info found for ''.", out2).
Proof.
  destruct (query_encodable_topic mkResearchAgent "PCI-DSS" [] eq_refl)
    as (s1 & o1 & Hq1 & _ & Hknown & _).
  destruct (query_encodable_topic mkResearchAgent "" [] eq_refl)
    as (s2 & o2 & Hq2 & _ & _ & Hmiss & _).
  exists o1. split.
  - rewrite Hq1. f_equal. f_equal. apply Hknown. simpl. left. reflexivity.
  - exists o2. rewrite Hq2. f_equal. f_equal. apply Hmiss.
    simpl. intuition discriminate.
Defined.

(** C7: for every context whose [data_types] entry is absent or is a list
    holding neither ["payment_info"] nor ["user_profiles"],
    [ComplianceAgent.run] returns a response whose [required_compliance] is
    the sentinel list [["None"]], not an empty list, and the entry is
    present. *)
Theorem ComplianceAgent_run_sentinel researcher (requirements : dict value)
    (categories : list value) out :
  data_types_of requirements = VList categories ->
  ~ In (VStr "payment_info") categories ->
  ~ In (VStr "user_profiles") categories ->
  exists f,
    ComplianceAgent_run researcher (VDict requirements) out = (inr f, out) /\
    name f = "ComplianceAgent" /\
    dict_get (output f) "required_compliance" = Some (VList [VStr "None"]) /\
    dict_get (output f) "required_compliance" <> Some (VList []) /\
    dict_get (output f) "research_notes" = Some (VList []).
Proof.
  intros Hdt Hpay Hprof.
  apply existsb_eq_str in Hpay. apply existsb_eq_str in Hprof.
  unfold ComplianceAgent_run.
  erewrite bind_ok by apply py_get_dict.
  fold (data_types_of requirements). rewrite Hdt. simpl py_in.
  erewrite bind_ok by reflexivity. rewrite Hpay.
  erewrite bind_ok by reflexivity.
  erewrite bind_ok by reflexivity. rewrite Hprof.
  erewrite bind_ok by reflexivity.
  eexists. split; [reflexivity|]. simpl. repeat split. discriminate.
Qed.

Lemma ComplianceAgent_run_sentinel_witness :
  exists f,
    ComplianceAgent_run mkResearchAgent
      (VDict [("data_types", VList [VStr "inventory"])]) [] = (inr f, []) /\
    name f = "ComplianceAgent" /\
    dict_get (output f) "required_compliance" = Some (VList [VStr "None"]) /\
    dict_get (output f) "required_compliance" <> Some (VList []) /\
    dict_get (output f) "research_notes" = Some (VList []).
Proof.
  apply (ComplianceAgent_run_sentinel mkResearchAgent
           [("data_types", VList [VStr "inventory"])] [VStr "inventory"] []).
  - reflexivity.
  - simpl. intuition discriminate.
  - simpl. intuition discriminate.
Defined.

(** C9, as stated, does not hold: on the empty context, where every upstream
    field is missing, [ReviewAgent.run] returns its two fixed risks, and
    ["insufficient information"] is not one of them. *)
Lemma ReviewAgent_run_no_marker :
  exists f items,
    ReviewAgent_run (VDict []) [] = (inr f, []) /\
    dict_get (output f) "risks" = Some (VList items) /\
    ~ In (VStr "insufficient information") items.
Proof.
  do 2 eexists. split; [reflexivity|]. split; [reflexivity|].
  simpl. intuition discriminate.
Qed.

(** C9, amended: for every input, [ReviewAgent.run] returns without raising,
    and always the same response: score 9.1, the two fixed risks and the
    summary built from them.  The input is not read, so no
    ["insufficient information"] risk is recorded, whatever is missing. *)
Theorem ReviewAgent_run_fixed (context : value) (out : stdout) :
  exists f,
    ReviewAgent_run context out = (inr f, out) /\
    name f = "ReviewAgent" /\
    output f =
      [ ("overall_score", VFloat "9.1");
        ("risks",
         VList [VStr "Cold starts (serverless)";
                VStr "Vendor lock-in (managed DB)"]);
        ("summary",
         VStr ("Validated architecture with score 9.1/10. Risks: "
               ++ "Cold starts (serverless), Vendor lock-in (managed DB)")) ]
    /\
    (forall context2 out2, fst (ReviewAgent_run context2 out2) = inr f).
Proof.
  eexists. split; [reflexivity|]. repeat split.
Qed.

(** C10: [CostEstimationAgent.run] returns the same response on any two
    inputs: the monthly estimate, the tier and the optimizations are fixed
    and no part of the input is read. *)
Theorem CostEstimationAgent_run_constant (c1 c2 : value) (out1 out2 : stdout) :
  fst (CostEstimationAgent_run c1 out1) = fst (CostEstimationAgent_run c2 out2)
  /\
  exists f,
    CostEstimationAgent_run c1 out1 = (inr f, out1) /\
    name f = "CostEstimationAgent" /\
    output f =
      [ ("monthly_estimate_usd", VStr "~$120–150");
        ("tier", VStr "low-cost, scalable");
        ("optimizations",
         VList [VStr "CDN caching for static assets";
                VStr "Auto-suspend idle dev DBs";
                VStr "Serverless pay-per-use model"]) ].
Proof.
  split; [reflexivity|]. eexists. repeat split.
Qed.

(** ** More on [ResearchAgent.query] *)

Lemma append_length (s t : string) :
  String.length (s ++ t) = String.length s + String.length t.
Proof. induction s as [|c s IH]; simpl; [reflexivity | now rewrite IH]. Qed.

Lemma append_cancel_r (s t tail : string) : s ++ tail = t ++ tail -> s = t.
Proof.
  revert t. induction s as [|c s IH]; intros [|d t] Heq; simpl in Heq.
  - reflexivity.
  - apply (f_equal String.length) in Heq. simpl in Heq.
    rewrite append_length in Heq. lia.
  - apply (f_equal String.length) in Heq. simpl in Heq.
    rewrite append_length in Heq. lia.
  - injection Heq as -> Heq. f_equal. now apply IH.
Qed.

(** X1: Distinct topics get distinct answers: the four stored summaries differ
    from one another and from every fallback text, and the fallback text
    determines its topic.  A caller can tell a miss from a hit, and one miss
    from another, by the returned string alone. *)
Theorem query_injective self (t1 t2 : string) out1 out2 :
  fst (query self t1 out1) = fst (query self t2 out2) -> t1 = t2.
Proof.
  destruct (has_surrogate t1) eqn:E1; destruct (has_surrogate t2) eqn:E2.
  { rewrite !query_raises by trivial. cbn [fst]. intros [= Heq].
    exact (append_cancel_r t1 t2 " ..." Heq). }
  { rewrite query_raises, query_ok by trivial. discriminate. }
  { rewrite query_ok, query_raises by trivial. discriminate. }
  rewrite !query_ok by trivial. cbn [fst].
  destruct (dict_get simulated_results t1) as [e1|] eqn:H1;
    destruct (dict_get simulated_results t2) as [e2|] eqn:H2;
    intros [= Heq].
  - apply dict_get_Some_In in H1. apply dict_get_Some_In in H2.
    simpl in H1, H2.
    destruct H1 as [H1|[H1|[H1|[H1|[]]]]]; injection H1 as <- <-;
      destruct H2 as [H2|[H2|[H2|[H2|[]]]]]; injection H2 as <- <-;
      (reflexivity || discriminate Heq).
  - apply dict_get_Some_In in H1. simpl in H1.
    destruct H1 as [H1|[H1|[H1|[H1|[]]]]]; injection H1 as <- <-;
      unfold no_info in Heq; simpl in Heq; discriminate Heq.
  - apply dict_get_Some_In in H2. simpl in H2.
    destruct H2 as [H2|[H2|[H2|[H2|[]]]]]; injection H2 as <- <-;
      unfold no_info in Heq; simpl in Heq; discriminate Heq.
  - exact (append_cancel_r t1 t2 "'." Heq).
Qed.

Lemma query_injective_witness : "GDPR" = "GDPR".
Proof.
  apply (query_injective mkResearchAgent "GDPR" "GDPR" [] ["earlier line"]).
  reflexivity.
Defined.

(** ** More on the agents *)

Lemma existsb_eq_str_true s (items : list value) :
  existsb (eq_str s) items = true <-> In (VStr s) items.
Proof.
  destruct (existsb (eq_str s) items) eqn:E.
  - split; trivial. intros _.
    apply existsb_exists in E as (x & Hin & Hx).
    destruct x; try discriminate. simpl in Hx.
    apply String.eqb_eq in Hx as ->. exact Hin.
  - apply existsb_eq_str in E. split; [discriminate | tauto].
Qed.

(** X2: [ComplianceAgent.run] on a list of data categories: PCI-DSS is required
    exactly when ["payment_info"] is in the list and GDPR exactly when
    ["user_profiles"] is; ["None"] stands in exactly when neither is.  Every
    research note is one of the stored summaries (never the fallback text),
    there is one note and one printed search line per obligation, and the
    security controls are the fixed three. *)
Theorem ComplianceAgent_run_obligations researcher
    (requirements : dict value) (categories : list value) out :
  data_types_of requirements = VList categories ->
  exists f out' obligations notes,
    ComplianceAgent_run researcher (VDict requirements) out = (inr f, out') /\
    dict_get (output f) "required_compliance" = Some (VList obligations) /\
    dict_get (output f) "research_notes" = Some (VList notes) /\
    dict_get (output f) "security_controls" = Some security_controls /\
    (In (VStr "PCI-DSS") obligations <-> In (VStr "payment_info") categories)
    /\
    (In (VStr "GDPR") obligations <-> In (VStr "user_profiles") categories)
    /\
    (In (VStr "None") obligations <->
       ~ In (VStr "payment_info") categories /\
       ~ In (VStr "user_profiles") categories) /\
    (forall note, In note notes ->
       exists topic summary,
         In (topic, summary) simulated_results /\ note = VStr summary) /\
    (In (VStr "None") obligations \/ length notes = length obligations) /\
    length out' = length out + length notes.
Proof.
  intros Hdt.
  pose proof (existsb_eq_str_true "payment_info" categories) as Hpay.
  pose proof (existsb_eq_str_true "user_profiles" categories) as Hprof.
  pose proof (existsb_eq_str "payment_info" categories) as Hpay'.
  pose proof (existsb_eq_str "user_profiles" categories) as Hprof'.
  unfold ComplianceAgent_run.
  erewrite bind_ok by apply py_get_dict.
  fold (data_types_of requirements). rewrite Hdt. simpl py_in.
  erewrite bind_ok by reflexivity.
  destruct (existsb (eq_str "payment_info") categories);
    (erewrite bind_ok by reflexivity);
    (erewrite bind_ok by reflexivity);
    destruct (existsb (eq_str "user_profiles") categories);
    (erewrite bind_ok by reflexivity);
    do 4 eexists;
    (split; [reflexivity|]); (split; [reflexivity|]);
    (split; [reflexivity|]); (split; [reflexivity|]);
    simpl; rewrite ?length_app; simpl.
  all: repeat split; try tauto; try lia; try (intuition discriminate).
  all: try (intros note [<-|[<-|[]]]; do 2 eexists;
            (split; [|reflexivity]); simpl; eauto 10).
  all: try (intros note [<-|[]]; do 2 eexists;
            (split; [|reflexivity]); simpl; eauto 10).
  all: try (intros _; tauto).
Qed.

Lemma ComplianceAgent_run_obligations_witness :
  exists f out' obligations notes,
    ComplianceAgent_run mkResearchAgent
      (VDict [("data_types", VList [VStr "payment_info"])]) []
      = (inr f, out') /\
    dict_get (output f) "required_compliance" = Some (VList obligations) /\
    dict_get (output f) "research_notes" = Some (VList notes) /\
    In (VStr "PCI-DSS") obligations /\ length notes = 1.
Proof.
  destruct (ComplianceAgent_run_obligations mkResearchAgent
              [("data_types", VList [VStr "payment_info"])]
              [VStr "payment_info"] [] eq_refl)
    as (f & out' & obligations & notes & Hr & Hc & Hn & _ & Hpci & _ & Hnone
        & _ & Hlen & _).
  exists f, out', obligations, notes. repeat split; trivial.
  - apply Hpci. simpl. tauto.
  - destruct Hlen as [Hs|Hlen].
    + apply Hnone in Hs. simpl in Hs. tauto.
    + cbv in Hr. injection Hr as <- <-.
      simpl in Hn. injection Hn as <-. reflexivity.
Defined.

(** X4: An input that is not a dictionary (the problem text, a list, a number):
    the two agents that call [.get] raise [AttributeError] before printing
    anything, and the three others return their response as for any other
    input. *)
Theorem agent_run_not_dict (agent : Agent) (input : value) out :
  (forall d, input <> VDict d) ->
  (reads_context agent = true ->
   agent_run agent input out = (inl AttributeError, out)) /\
  (reads_context agent = false ->
   exists f, agent_run agent input out = (inr f, out) /\
             name f = agent_name agent).
Proof.
  intros Hnd. split; intros Hreads.
  - destruct agent; try discriminate;
      destruct input; try reflexivity; now elim (Hnd entries).
  - destruct agent; try discriminate; eexists; split; reflexivity.
Qed.

Lemma agent_run_not_dict_witness :
  agent_run (ArchitectureAgent mkResearchAgent) (VList []) []
    = (inl AttributeError, []) /\
  exists f, agent_run ReviewAgent (VList []) [] = (inr f, []) /\
            name f = "ReviewAgent".
Proof.
  split.
  - apply (agent_run_not_dict (ArchitectureAgent mkResearchAgent) (VList []) []);
      [discriminate | reflexivity].
  - apply (agent_run_not_dict ReviewAgent (VList []) []);
      [discriminate | reflexivity].
Defined.

(** X5: A number where a list is expected: with a numeric [data_types],
    [ComplianceAgent.run] raises [TypeError] at its first [in]; with a numeric
    [constraints], [ArchitectureAgent.run] does.  Nothing is printed and no
    research query is made. *)
Theorem agent_run_number_field researcher (context : dict value) out :
  (is_number (data_types_of context) = true ->
   ComplianceAgent_run researcher (VDict context) out = (inl TypeError, out))
  /\
  (is_number (constraints_of context) = true ->
   ArchitectureAgent_run researcher (VDict context) out = (inl TypeError, out)).
Proof.
  split; intros Hnum.
  - unfold ComplianceAgent_run. erewrite bind_ok by apply py_get_dict.
    fold (data_types_of context).
    destruct (data_types_of context); try discriminate; reflexivity.
  - unfold ArchitectureAgent_run. erewrite bind_ok by apply py_get_dict.
    fold (constraints_of context).
    destruct (constraints_of context); try discriminate; reflexivity.
Qed.

Lemma agent_run_number_field_witness :
  ComplianceAgent_run mkResearchAgent (VDict [("data_types", VInt 3)]) []
    = (inl TypeError, []) /\
  ArchitectureAgent_run mkResearchAgent
    (VDict [("constraints", VFloat "0.5")]) [] = (inl TypeError, []).
Proof.
  split.
  - apply (agent_run_number_field mkResearchAgent [("data_types", VInt 3)] []).
    reflexivity.
  - apply (agent_run_number_field mkResearchAgent
             [("constraints", VFloat "0.5")] []).
    reflexivity.
Defined.

(** X3: [ArchitectureAgent.run] on a list of constraints: the pattern is
    Serverless exactly when ["low_ops"] is in the list and Containers
    otherwise, the compute service goes with the pattern, the research
    reference is the stored summary of the pattern (never the fallback text),
    the security entry hands on the context's [security_controls] (an empty
    list when there is none), and exactly one search line is printed. *)
Theorem ArchitectureAgent_run_pattern researcher (context : dict value)
    (constraints : list value) out :
  constraints_of context = VList constraints ->
  exists f pattern compute reference,
    ArchitectureAgent_run researcher (VDict context) out
      = (inr f,
         (out ++ [("[ResearchAgent] Searching the web for: " ++ pattern
                   ++ " ...")%string])%list) /\
    dict_get (output f) "pattern" = Some (VStr pattern) /\
    dict_get (output f) "compute" = Some (VStr compute) /\
    dict_get (output f) "research_reference" = Some (VStr reference) /\
    dict_get (output f) "security" = Some (security_controls_of context) /\
    In (pattern, reference) simulated_results /\
    (In (VStr "low_ops") constraints ->
     pattern = "Serverless" /\ compute = "Serverless Functions") /\
    (~ In (VStr "low_ops") constraints ->
     pattern = "Containers" /\ compute = "Container Service").
Proof.
  intros Hcs.
  pose proof (existsb_eq_str_true "low_ops" constraints) as Hin.
  pose proof (existsb_eq_str "low_ops" constraints) as Hnot.
  unfold ArchitectureAgent_run.
  erewrite bind_ok by apply py_get_dict.
  fold (constraints_of context). rewrite Hcs. simpl py_in.
  erewrite bind_ok by reflexivity.
  destruct (existsb (eq_str "low_ops") constraints);
    (erewrite bind_ok by (apply query_ok; reflexivity));
    (erewrite bind_ok by apply py_get_dict);
    fold (security_controls_of context);
    do 4 eexists;
    (split; [reflexivity|]); (split; [reflexivity|]);
    (split; [reflexivity|]); (split; [reflexivity|]);
    (split; [reflexivity|]); (split; [simpl; tauto|]); split; intros H;
    try (split; reflexivity).
  - destruct Hnot as [_ Hnot]. discriminate (Hnot H).
  - destruct Hin as [_ Hin]. discriminate (Hin H).
Qed.

Lemma ArchitectureAgent_run_pattern_witness :
  exists f pattern,
    fst (ArchitectureAgent_run mkResearchAgent
           (VDict [("constraints", VList [VStr "low_ops"])]) []) = inr f /\
    dict_get (output f) "pattern" = Some (VStr pattern) /\
    pattern = "Serverless".
Proof.
  destruct (ArchitectureAgent_run_pattern mkResearchAgent
              [("constraints", VList [VStr "low_ops"])] [VStr "low_ops"] []
              eq_refl)
    as (f & pattern & compute & reference & Hr & Hp & _ & _ & _ & _ & Hlow & _).
  exists f, pattern. rewrite Hr. repeat split; trivial.
  apply Hlow. simpl. tauto.
Defined.

(** ** More on [Orchestrator.run] *)

Lemma agent_run_text_any (agent : Agent) (p q : string) out :
  agent_run agent (VStr p) out = agent_run agent (VStr q) out.
Proof. destruct agent; reflexivity. Qed.

(** X6: The problem statement has no influence on the result: no agent reads the
    text it is handed, so two runs of the same sequence on any two problem
    strings return the same mapping (or raise the same exception) and print
    the same lines. *)
Theorem Orchestrator_run_ignores_problem (agents : list Agent)
    (p q : string) out :
  Orchestrator_run (mkOrchestrator agents) p out
  = Orchestrator_run (mkOrchestrator agents) q out.
Proof.
  unfold Orchestrator_run. simpl.
  destruct agents as [|agent rest]; [reflexivity|].
  simpl. unfold bind, run_body, run_entry. simpl.
  unfold bind. change (run agent) with (agent_run agent).
  rewrite (agent_run_text_any agent p q out).
  destruct (agent_run agent (VStr q) out) as [[e|f] out1]; reflexivity.
Qed.

(** X7: [Orchestrator.run] raises exactly when the sequence starts with an
    agent that calls [.get]; the exception is then [AttributeError] and
    nothing has been printed.  In every other case the run returns a
    mapping. *)
Theorem Orchestrator_run_raises_iff (agents : list Agent) problem out :
  (accepts_text agents = false ->
   Orchestrator_run (mkOrchestrator agents) problem out
     = (inl AttributeError, out)) /\
  (accepts_text agents = true ->
   exists res out',
     Orchestrator_run (mkOrchestrator agents) problem out = (inr res, out')).
Proof.
  split; intros Hacc.
  - destruct agents as [|agent rest]; [discriminate|].
    simpl in Hacc. apply negb_false_iff in Hacc.
    destruct agent; try discriminate; reflexivity.
  - destruct (Orchestrator_run_keys agents problem out Hacc)
      as (res & out' & Hr & _).
    now exists res, out'.
Qed.

Lemma Orchestrator_run_raises_iff_witness :
  Orchestrator_run
    (mkOrchestrator [ArchitectureAgent mkResearchAgent; RequirementsAgent])
    "shop" [] = (inl AttributeError, []) /\
  exists res out',
    Orchestrator_run
      (mkOrchestrator [CostEstimationAgent; ArchitectureAgent mkResearchAgent])
      "shop" [] = (inr res, out').
Proof.
  split.
  - apply (Orchestrator_run_raises_iff
             [ArchitectureAgent mkResearchAgent; RequirementsAgent] "shop" []).
    reflexivity.
  - apply (Orchestrator_run_raises_iff
             [CostEstimationAgent; ArchitectureAgent mkResearchAgent]
             "shop" []).
    reflexivity.
Defined.

Lemma stored_get_other log results0 k :
  (forall g, In g log -> name g <> k) ->
  dict_get (stored log results0) k = dict_get results0 k.
Proof.
  revert results0. induction log as [|g log IH]; intros results0 Hne; simpl.
  - reflexivity.
  - rewrite IH by (intros; apply Hne; now right).
    unfold store. apply dict_get_set_ne. apply Hne. now left.
Qed.

(** X8: Last store wins in [results]: after a completed run, the entry under a
    name holds the output of the last response that carries this name. *)
Theorem results_last_store {A : Type} `{Runnable A} (agents : list A)
    problem out log st out' before f after :
  run_loop_log agents (run_entry problem) out = (inr (log, st), out') ->
  log = (before ++ f :: after)%list ->
  (forall g, In g after -> name g <> name f) ->
  dict_get (results st) (name f) = Some (VDict (output f)).
Proof.
  intros Hrun Hlog Hafter.
  destruct (run_loop_log_spec _ _ _ _ _ _ Hrun) as (_ & Hres & _).
  rewrite Hres, Hlog. unfold stored. rewrite fold_left_app. simpl.
  fold (stored after (store (fold_left store before (results (run_entry problem))) f)).
  rewrite stored_get_other by exact Hafter.
  apply dict_get_set_eq.
Qed.

Lemma results_last_store_witness :
  exists st out',
    run_loop [ReviewAgent; ComplianceAgent mkResearchAgent; RequirementsAgent;
              ComplianceAgent mkResearchAgent] (run_entry "shop") []
      = (inr st, out') /\
    exists o,
      dict_get (results st) "ComplianceAgent" = Some (VDict o) /\
      dict_get o "required_compliance"
        = Some (VList [VStr "PCI-DSS"; VStr "GDPR"]).
Proof.
  do 2 eexists. split; [cbv; reflexivity|].
  eexists. split.
  - eapply (results_last_store
              [ReviewAgent; ComplianceAgent mkResearchAgent; RequirementsAgent;
               ComplianceAgent mkResearchAgent] "shop" [] _ _ _
              [_; _; _]
              (mkAgentResponse "ComplianceAgent" _) []).
    + cbv. reflexivity.
    + reflexivity.
    + intros g [].
  - reflexivity.
Defined.

(** *** Which agent produces which key *)

Lemma agent_run_given_keys agent ctx out f out' :
  agent_run agent ctx out = (inr f, out') ->
  dict_get (output f) "data_types"
    = (if is_requirements agent then Some requirements_data_types else None) /\
  dict_get (output f) "constraints"
    = (if is_requirements agent then Some requirements_constraints else None) /\
  dict_get (output f) "security_controls"
    = (if is_compliance agent then Some security_controls else None).
Proof.
  destruct agent; simpl.
  - intros [= <- <-]. now repeat split.
  - unfold ComplianceAgent_run. intros Hr.
    apply bind_inv in Hr as (dt & o1 & _ & Hr).
    apply bind_inv in Hr as (b1 & o2 & _ & Hr).
    apply bind_inv in Hr as (l1 & o3 & _ & Hr).
    apply bind_inv in Hr as (b2 & o4 & _ & Hr).
    apply bind_inv in Hr as (l2 & o5 & _ & Hr).
    injection Hr as <- <-. now repeat split.
  - unfold ArchitectureAgent_run. intros Hr.
    apply bind_inv in Hr as (base & o1 & _ & Hr).
    apply bind_inv in Hr as (b1 & o2 & _ & Hr).
    apply bind_inv in Hr as (ref & o3 & _ & Hr).
    apply bind_inv in Hr as (sec & o4 & _ & Hr).
    injection Hr as <- <-. now repeat split.
  - intros [= <- <-]. now repeat split.
  - intros [= <- <-]. now repeat split.
Qed.

Lemma last_set_by_class (k : string) (P : Agent -> bool) (v : value) :
  (forall agent ctx out f out',
     agent_run agent ctx out = (inr f, out') ->
     dict_get (output f) k = if P agent then Some v else None) ->
  forall agents st out log st' out',
    run_loop_log agents st out = (inr (log, st'), out') ->
    last_set k log = if existsb P agents then Some v else None.
Proof.
  intros Hcls agents.
  induction agents as [|agent rest IH]; intros st out log st' out'; simpl.
  - now intros [= <- <- <-].
  - intros Hb. apply bind_inv in Hb as ([response st1] & out1 & Hbody & Hb).
    apply bind_inv in Hb as ([log2 st2] & out2 & Hrest & Hret).
    injection Hret as <- <- <-.
    apply run_body_inv in Hbody as [Hrun _].
    simpl. rewrite (IH _ _ _ _ _ Hrest), (Hcls _ _ _ _ _ Hrun).
    destruct (P agent), (existsb P rest); reflexivity.
Qed.

(** A completed run of [pre ++ post] is a completed run of [pre] followed by
    one of [post]. *)
Lemma run_loop_log_app_inv {A : Type} `{Runnable A} (pre post : list A)
    st out log st' out' :
  run_loop_log (pre ++ post) st out = (inr (log, st'), out') ->
  exists log1 st1 out1 log2,
    run_loop_log pre st out = (inr (log1, st1), out1) /\
    run_loop_log post st1 out1 = (inr (log2, st'), out') /\
    log = (log1 ++ log2)%list.
Proof.
  revert st out log st' out'.
  induction pre as [|agent pre IH]; intros st out log st' out'; simpl.
  - intros Hrun. exists [], st, out, log. now repeat split.
  - intros Hb. apply bind_inv in Hb as ([response st1] & out1 & Hbody & Hb).
    apply bind_inv in Hb as ([log2 st2] & out2 & Hrest & Hret).
    injection Hret as <- <- <-. simpl in Hrest.
    apply IH in Hrest as (l1 & s1 & o1 & l2 & Hpre & Hpost & ->).
    exists (response :: l1), s1, o1, l2. repeat split; trivial.
    erewrite bind_ok by exact Hbody. simpl.
    erewrite bind_ok by exact Hpre. reflexivity.
Qed.

(** The context a stage in the middle of a completed run receives, and the
    response it gives. *)
Lemma run_stage_inv (pre : list Agent) (agent : Agent) (post : list Agent)
    problem out log st out' :
  run_loop_log (pre ++ agent :: post) (run_entry problem) out
    = (inr (log, st), out') ->
  exists log1 st1 out1 f out2,
    run_loop_log pre (run_entry problem) out = (inr (log1, st1), out1) /\
    agent_run agent (context st1) out1 = (inr f, out2) /\
    nth_error log (length pre) = Some f.
Proof.
  intros Hrun.
  apply run_loop_log_app_inv in Hrun
    as (log1 & st1 & out1 & log2 & Hpre & Hpost & ->).
  simpl in Hpost.
  apply bind_inv in Hpost as ([f st2] & out2 & Hbody & Hpost).
  apply bind_inv in Hpost as ([log3 st3] & out3 & _ & Hret).
  injection Hret as <- <- <-.
  apply run_body_inv in Hbody as [Hf _].
  exists log1, st1, out1, f, out2. repeat split; trivial.
  destruct (run_loop_log_spec _ _ _ _ _ _ Hpre) as (Hlen & _).
  rewrite <- Hlen, nth_error_app2, Nat.sub_diag by lia. reflexivity.
Qed.

(** What a stage after a non-empty prefix finds under a key that one class
    of agents produces. *)
Lemma context_by_class (k : string) (P : Agent -> bool) (v : value)
    (pre : list Agent) problem out log st out1 :
  (forall agent ctx out f out',
     agent_run agent ctx out = (inr f, out') ->
     dict_get (output f) k = if P agent then Some v else None) ->
  run_loop_log pre (run_entry problem) out = (inr (log, st), out1) ->
  pre <> [] ->
  exists c, context st = VDict c /\
            dict_get c k = if existsb P pre then Some v else None.
Proof.
  intros Hcls Hrun Hpre.
  destruct (run_loop_log_spec _ _ _ _ _ _ Hrun) as (Hlen & _ & Hctx).
  destruct (run_loop_log_names _ _ _ _ _ _ Hrun) as [_ Hwf].
  destruct (merged_text_get log (VStr problem) k) as (c & Hm & Hg); trivial.
  - discriminate.
  - destruct log; [|discriminate]. destruct pre; [congruence|discriminate].
  - exists c. split; [simpl in Hctx; congruence|].
    rewrite Hg. eapply last_set_by_class; eauto.
Qed.

(** *** How the stages depend on one another *)

(** X10: In a completed run, a [ComplianceAgent] stage requires PCI-DSS and GDPR,
    with their two research notes, when a [RequirementsAgent] ran somewhere
    before it, and answers with the ["None"] sentinel and no note
    otherwise. *)
Theorem compliance_follows_requirements (pre : list Agent) researcher
    (post : list Agent) problem out log st out' :
  run_loop_log (pre ++ ComplianceAgent researcher :: post)
    (run_entry problem) out = (inr (log, st), out') ->
  exists f,
    nth_error log (length pre) = Some f /\
    dict_get (output f) "required_compliance"
      = Some (VList (if existsb is_requirements pre
                     then [VStr "PCI-DSS"; VStr "GDPR"]
                     else [VStr "None"])) /\
    dict_get (output f) "research_notes"
      = Some (VList (if existsb is_requirements pre
                     then [VStr "Found compliance guidelines from AWS and GCP docs.";
                           VStr "Retrieved GDPR checklist from official EU documentation."]
                     else [])).
Proof.
  intros Hrun.
  apply run_stage_inv in Hrun as (log1 & st1 & out1 & f & out2 & Hpre & Hf & Hn).
  exists f. split; trivial.
  assert (Hne : pre <> []).
  { intros ->. simpl in Hpre. injection Hpre as <- <- <-. discriminate Hf. }
  destruct (context_by_class "data_types" is_requirements
              requirements_data_types pre problem out log1 st1 out1)
    as (c & Hc & Hg); trivial.
  { intros a ctx o g o' Ha. now apply agent_run_given_keys in Ha. }
  rewrite Hc in Hf. simpl in Hf. unfold ComplianceAgent_run in Hf.
  erewrite bind_ok in Hf by apply py_get_dict. rewrite Hg in Hf.
  destruct (existsb is_requirements pre); cbv in Hf;
    injection Hf as <- _; split; reflexivity.
Qed.

Lemma compliance_follows_requirements_witness :
  exists log st out',
    run_loop_log ([CostEstimationAgent] ++ ComplianceAgent mkResearchAgent :: [])
      (run_entry "shop") [] = (inr (log, st), out') /\
    exists f,
      nth_error log 1 = Some f /\
      dict_get (output f) "required_compliance" = Some (VList [VStr "None"]).
Proof.
  do 3 eexists. split; [cbv; reflexivity|].
  destruct (compliance_follows_requirements [CostEstimationAgent]
              mkResearchAgent [] "shop" [] _ _ _ eq_refl)
    as (f & Hn & Hc & _).
  exists f. split; [exact Hn | exact Hc].
Defined.

(** X11: In a completed run, an [ArchitectureAgent] stage picks Serverless when a
    [RequirementsAgent] ran somewhere before it and Containers otherwise, and
    its security entry is the fixed list of controls when a [ComplianceAgent]
    ran before it and empty otherwise. *)
Theorem architecture_follows_upstream (pre : list Agent) researcher
    (post : list Agent) problem out log st out' :
  run_loop_log (pre ++ ArchitectureAgent researcher :: post)
    (run_entry problem) out = (inr (log, st), out') ->
  exists f,
    nth_error log (length pre) = Some f /\
    dict_get (output f) "pattern"
      = Some (VStr (if existsb is_requirements pre
                    then "Serverless" else "Containers")) /\
    dict_get (output f) "security"
      = Some (if existsb is_compliance pre
              then security_controls else VList []).
Proof.
  intros Hrun.
  apply run_stage_inv in Hrun as (log1 & st1 & out1 & f & out2 & Hpre & Hf & Hn).
  exists f. split; trivial.
  assert (Hne : pre <> []).
  { intros ->. simpl in Hpre. injection Hpre as <- <- <-. discriminate Hf. }
  destruct (context_by_class "constraints" is_requirements
              requirements_constraints pre problem out log1 st1 out1)
    as (c & Hc & Hg); trivial.
  { intros a ctx o g o' Ha. now apply agent_run_given_keys in Ha. }
  destruct (context_by_class "security_controls" is_compliance
              security_controls pre problem out log1 st1 out1)
    as (c' & Hc' & Hs); trivial.
  { intros a ctx o g o' Ha. now apply agent_run_given_keys in Ha. }
  rewrite Hc in Hc'. injection Hc' as <-.
  rewrite Hc in Hf. simpl in Hf. unfold ArchitectureAgent_run in Hf.
  erewrite bind_ok in Hf by apply py_get_dict. rewrite Hg in Hf.
  destruct (existsb is_requirements pre); simpl py_in in Hf;
    (erewrite bind_ok in Hf by reflexivity);
    (erewrite bind_ok in Hf by (apply query_ok; reflexivity));
    (erewrite bind_ok in Hf by apply py_get_dict);
    rewrite Hs in Hf; injection Hf as <- _;
    (split; [reflexivity|]); simpl;
    destruct (existsb is_compliance pre); reflexivity.
Qed.

Lemma architecture_follows_upstream_witness :
  exists log st out',
    run_loop_log ([RequirementsAgent] ++ ArchitectureAgent mkResearchAgent :: [])
      (run_entry "shop") [] = (inr (log, st), out') /\
    exists f,
      nth_error log 1 = Some f /\
      dict_get (output f) "pattern" = Some (VStr "Serverless") /\
      dict_get (output f) "security" = Some (VList []).
Proof.
  do 3 eexists. split; [cbv; reflexivity|].
  apply (architecture_follows_upstream [RequirementsAgent] mkResearchAgent []
           "shop" [] _ _ _ eq_refl).
Defined.

(** *** What a run prints *)

Lemma only_searches_ret {A} (a : A) : only_searches (ret a).
Proof.
  intros out r out' [= <- <-]. exists []. now rewrite app_nil_r.
Qed.

Lemma only_searches_raise {A} (e : exn) : only_searches (@raise A e).
Proof.
  intros out r out' [= <- <-]. exists []. now rewrite app_nil_r.
Qed.

Lemma only_searches_bind {A B} (m : M A) (f : A -> M B) :
  only_searches m -> (forall a, only_searches (f a)) ->
  only_searches (bind m f).
Proof.
  intros Hm Hf out r out'. unfold bind.
  destruct (m out) as [[e|a] out1] eqn:Em.
  - intros [= <- <-]. eapply Hm; eauto.
  - intros Hfa. destruct (Hm _ _ _ Em) as (l1 & -> & H1).
    destruct (Hf a _ _ _ Hfa) as (l2 & -> & H2).
    exists (l1 ++ l2)%list. rewrite app_assoc. split; trivial.
    apply Forall_app. now split.
Qed.

Lemma only_searches_query self topic :
  In topic (keys simulated_results) -> only_searches (query self topic).
Proof.
  intros Hin out r out'.
  assert (Henc : has_surrogate topic = false).
  { simpl in Hin. destruct Hin as [<-|[<-|[<-|[<-|[]]]]]; reflexivity. }
  rewrite query_ok by exact Henc. intros [= <- <-].
  eexists. split; [reflexivity|]. constructor; [|constructor].
  now exists topic.
Qed.

Lemma only_searches_py_get obj key default :
  only_searches (py_get obj key default).
Proof.
  destruct obj; simpl; (apply only_searches_ret || apply only_searches_raise).
Qed.

Lemma only_searches_py_in s container : only_searches (py_in s container).
Proof.
  destruct container; simpl;
    (apply only_searches_ret || apply only_searches_raise).
Qed.

Lemma only_searches_agent_run (agent : Agent) ctx :
  only_searches (agent_run agent ctx).
Proof.
  destruct agent; simpl.
  - apply only_searches_ret.
  - unfold ComplianceAgent_run.
    repeat first
      [ apply only_searches_ret
      | apply only_searches_py_get
      | apply only_searches_py_in
      | apply only_searches_query; simpl; tauto
      | apply only_searches_bind; [|intros ?]
      | match goal with |- only_searches (if ?b then _ else _) =>
          destruct b end ].
  - unfold ArchitectureAgent_run.
    repeat first
      [ apply only_searches_ret
      | apply only_searches_py_get
      | apply only_searches_py_in
      | apply only_searches_query;
          match goal with |- context [if ?b then _ else _] => destruct b end;
          simpl; tauto
      | apply only_searches_bind; [|intros ?] ].
  - apply only_searches_ret.
  - apply only_searches_ret.
Qed.

Lemma only_searches_run_loop (agents : list Agent) st :
  only_searches (run_loop agents st).
Proof.
  revert st. induction agents as [|agent rest IH]; intros st; simpl.
  - apply only_searches_ret.
  - apply only_searches_bind; [|intros step; apply IH].
    unfold run_body. apply only_searches_bind.
    + apply only_searches_agent_run.
    + intros response. apply only_searches_ret.
Qed.

(** X12: Whatever the sequence and whether the run returns or raises,
    [Orchestrator.run] leaves the earlier output untouched and prints only
    search lines of [ResearchAgent], each for one of its four stored topics:
    no agent ever asks for a topic the research agent has no entry for. *)
Theorem Orchestrator_run_prints (agents : list Agent) problem out r out' :
  Orchestrator_run (mkOrchestrator agents) problem out = (r, out') ->
  exists lines,
    out' = (out ++ lines)%list /\ Forall known_search_line lines.
Proof.
  apply (only_searches_bind (run_loop agents (run_entry problem))
           (fun st => ret (results st))).
  - apply only_searches_run_loop.
  - intros st. apply only_searches_ret.
Qed.

Lemma Orchestrator_run_prints_witness :
  exists lines,
    snd (Orchestrator_run (mkOrchestrator pipeline) "shop" ["earlier"])
      = ("earlier" :: lines) /\
    Forall known_search_line lines.
Proof.
  destruct (Orchestrator_run_prints pipeline "shop" ["earlier"] _ _ eq_refl)
    as (lines & Hout & Hall).
  exists lines. split; [exact Hout | exact Hall].
Defined.

(** ** [mask_credential] *)

Section MaskProperties.

Context {char : Type}.
Variable star : char.

Lemma str_repeat_single (n : Z) :
  Secure.str_repeat [star] n = repeat star (Z.to_nat n).
Proof.
  unfold Secure.str_repeat.
  induction (Z.to_nat n) as [|k IH]; simpl; [reflexivity | now rewrite IH].
Qed.

Lemma slice_from_suffix (s : list char) (k : Z) :
  (0 < k < Z.of_nat (length s))%Z ->
  Secure.slice_from s (- k) = skipn (length s - Z.to_nat k) s.
Proof.
  intros Hk. unfold Secure.slice_from.
  destruct (Z.ltb_spec (- k) 0) as [_|Hge]; [|lia].
  f_equal. lia.
Qed.

Lemma slice_from_prefix_cut (s : list char) (k : Z) :
  (k <= 0)%Z ->
  Secure.slice_from s (- k) = skipn (Z.to_nat (- k)) s.
Proof.
  intros Hk. unfold Secure.slice_from.
  destruct (Z.ltb_spec (- k) 0) as [Hlt|_]; [lia|].
  destruct (Z.le_gt_cases (- k) (Z.of_nat (length s))) as [Hle|Hgt].
  - now rewrite Z.min_l by trivial.
  - rewrite Z.min_r by lia. rewrite Nat2Z.id.
    rewrite !skipn_all2; trivial; lia.
Qed.

(** X13: With a positive [visible_chars], [mask_credential] never shows more than
    the last [visible_chars] characters.  A credential no longer than that
    (or empty) becomes four stars whatever it is; a longer one keeps its
    length, its last [visible_chars] characters stay and every character
    before them is a star. *)
Theorem mask_credential_hides (credential : list char) (visible_chars : Z) :
  (0 < visible_chars)%Z ->
  let masked := Secure.mask_credential star credential visible_chars in
  let n := Z.to_nat visible_chars in
  (length credential <= n -> masked = [star; star; star; star]) /\
  (n < length credential ->
   length masked = length credential /\
   firstn (length credential - n) masked
     = repeat star (length credential - n) /\
   skipn (length credential - n) masked
     = skipn (length credential - n) credential).
Proof.
  intros Hpos masked n. subst masked n. unfold Secure.mask_credential.
  split; intros Hlen.
  - destruct (Z.leb_spec (Z.of_nat (length credential)) visible_chars)
      as [_|Hgt]; [|lia].
    now rewrite orb_true_r.
  - destruct (Z.leb_spec (Z.of_nat (length credential)) visible_chars)
      as [Hle|Hgt]; [lia|].
    destruct credential as [|c rest] eqn:Ec; [simpl in Hlen; lia|].
    rewrite <- Ec in *. simpl orb. cbv iota.
    rewrite str_repeat_single, slice_from_suffix by lia.
    replace (Z.to_nat (Z.of_nat (length credential) - visible_chars))
      with (length credential - Z.to_nat visible_chars) by lia.
    set (k := length credential - Z.to_nat visible_chars).
    assert (Hk : length (repeat star k) = k) by apply repeat_length.
    repeat split.
    + rewrite length_app, Hk, length_skipn. lia.
    + rewrite firstn_app, Hk, Nat.sub_diag. simpl.
      rewrite app_nil_r. rewrite <- Hk at 1. apply firstn_all.
    + rewrite skipn_app, Hk, Nat.sub_diag. simpl.
      rewrite <- Hk at 1. now rewrite skipn_all.
Qed.

(** X14: With [visible_chars] zero or negative, and the number of stars
    [len(credential) - visible_chars] within the index range, nothing is
    hidden as intended: the slice [credential[-visible_chars:]] no longer
    counts from the end.  For zero the whole credential follows the stars;
    for [-k] everything but the first [k] characters does. *)
Theorem mask_credential_not_positive (credential : list char)
    (visible_chars : Z) :
  credential <> [] ->
  (visible_chars <= 0)%Z ->
  (Z.of_nat (length credential) - visible_chars <= Secure.index_max)%Z ->
  Secure.mask_credential star credential visible_chars
  = (repeat star (length credential + Z.to_nat (- visible_chars))
     ++ skipn (Z.to_nat (- visible_chars)) credential)%list /\
  (visible_chars = 0%Z ->
   Secure.mask_credential star credential visible_chars
   = (repeat star (length credential) ++ credential)%list).
Proof.
  intros Hne Hle _.
  assert (Hmask : Secure.mask_credential star credential visible_chars
    = (repeat star (length credential + Z.to_nat (- visible_chars))
       ++ skipn (Z.to_nat (- visible_chars)) credential)%list).
  { unfold Secure.mask_credential.
    destruct credential as [|c rest] eqn:Ec; [congruence|].
    rewrite <- Ec in *.
    assert (Hlen : (0 < Z.of_nat (length credential))%Z)
      by (rewrite Ec; simpl; lia).
    destruct (Z.leb_spec (Z.of_nat (length credential)) visible_chars)
      as [Hle'|_]; [lia|].
    simpl orb. cbv iota.
    rewrite str_repeat_single, slice_from_prefix_cut by trivial.
    do 2 f_equal. lia. }
  split; trivial.
  intros ->. rewrite Hmask. simpl. now rewrite Nat.add_0_r.
Qed.

End MaskProperties.

Lemma mask_credential_hides_witness :
  let credential := list_ascii_of_string "sk-live-12345678" in
  let masked := Secure.mask_credential "*"%char credential 4 in
  length masked = 16 /\
  firstn 12 masked = repeat "*"%char 12 /\
  skipn 12 masked = list_ascii_of_string "5678".
Proof.
  destruct (mask_credential_hides "*"%char
              (list_ascii_of_string "sk-live-12345678") 4 eq_refl)
    as [_ Hlong].
  apply Hlong. simpl. lia.
Defined.

Lemma mask_credential_not_positive_witness :
  Secure.mask_credential "*"%char (list_ascii_of_string "secret") 0
  = list_ascii_of_string "******secret".
Proof.
  apply (mask_credential_not_positive "*"%char
           (list_ascii_of_string "secret") 0);
    [discriminate | reflexivity | vm_compute; discriminate | reflexivity].
Defined.

(** ** [validate_webhook_data] *)

Lemma allowed_action_spec (v : Secure.payload) :
  existsb (fun allowed => Secure.is_str allowed v) Secure.allowed_actions
    = true <->
  exists action,
    v = Secure.PStr action /\
    (action = "create_user" \/ action = "update_user"
     \/ action = "delete_user").
Proof.
  split.
  - intros Hex. apply existsb_exists in Hex as (allowed & Hin & Hs).
    destruct v; try discriminate. simpl in Hs.
    apply String.eqb_eq in Hs as ->. exists allowed. split; trivial.
    simpl in Hin. intuition congruence.
  - intros (action & -> & Hact). apply existsb_exists. exists action.
    split; [simpl; intuition congruence | apply String.eqb_refl].
Qed.

(** X15: [validate_webhook_data] accepts exactly the dictionaries whose
    ["user_id"] is a positive integer or [True] (a [bool] is an [int] in
    Python) and whose ["action"] is one of the three allowed strings.
    Anything else is refused: another type of payload, a missing key, a
    float or a string as id, zero, a negative id, [False], an unknown
    action. *)
Theorem validate_webhook_data_accepts {Self : Type} (self : Self)
    (webhook_data : Secure.payload) :
  Secure.validate_webhook_data self webhook_data = true <->
  exists d user_id action,
    webhook_data = Secure.PDict d /\
    dict_get d "user_id" = Some user_id /\
    (user_id = Secure.PBool true \/
     exists n, user_id = Secure.PInt n /\ (0 < n)%Z) /\
    dict_get d "action" = Some (Secure.PStr action) /\
    (action = "create_user" \/ action = "update_user"
     \/ action = "delete_user").
Proof.
  unfold Secure.validate_webhook_data, Secure.get_or_none, dict_mem.
  split.
  - destruct webhook_data as [| | | | | |d]; try discriminate.
    destruct (dict_get d "user_id") as [user_id|] eqn:Hu; [|discriminate].
    destruct (dict_get d "action") as [act|] eqn:Ha; [|discriminate].
    cbn [negb orb].
    destruct (match Secure.as_int user_id with
              | Some n => (n <=? 0)%Z
              | None => true
              end) eqn:Hid; [discriminate|].
    destruct (existsb (fun allowed => Secure.is_str allowed act)
                Secure.allowed_actions) eqn:Hact; [|discriminate].
    intros _. apply allowed_action_spec in Hact as (action & -> & Hact).
    exists d, user_id, action. repeat split; trivial.
    destruct user_id as [|[|]|n| | | |]; simpl in Hid;
      try discriminate Hid; [now left|].
    right. exists n. split; trivial.
    apply Z.leb_gt in Hid. exact Hid.
  - intros (d & user_id & action & -> & Hu & Hid & Ha & Hact).
    rewrite Hu, Ha. cbn [negb orb].
    assert (Hok : match Secure.as_int user_id with
                  | Some n => (n <=? 0)%Z
                  | None => true
                  end = false).
    { destruct Hid as [->|(n & -> & Hn)]; simpl; trivial.
      now apply Z.leb_gt. }
    rewrite Hok.
    assert (Hallowed : existsb
              (fun allowed => Secure.is_str allowed (Secure.PStr action))
              Secure.allowed_actions = true).
    { apply allowed_action_spec. now exists action. }
    now rewrite Hallowed.
Qed.

Lemma validate_webhook_data_accepts_witness :
  Secure.validate_webhook_data tt
    (Secure.PDict [("action", Secure.PStr "delete_user");
                   ("user_id", Secure.PBool true);
                   ("note", Secure.PNone)]) = true /\
  Secure.validate_webhook_data tt
    (Secure.PDict [("user_id", Secure.PFloat "1.0");
                   ("action", Secure.PStr "delete_user")]) <> true.
Proof.
  split.
  - apply (validate_webhook_data_accepts tt).
    exists [("action", Secure.PStr "delete_user");
            ("user_id", Secure.PBool true); ("note", Secure.PNone)],
      (Secure.PBool true), "delete_user".
    repeat split; auto.
  - intros Hv. apply (validate_webhook_data_accepts tt) in Hv
      as (d & user_id & action & [= <-] & Hu & Hid & _).
    simpl in Hu. injection Hu as <-.
    destruct Hid as [Hb|(n & Hn & _)]; discriminate.
Defined.

(** X16: Only the two entries count: storing any value under a key other than
    ["user_id"] and ["action"] does not change the verdict. *)
Theorem validate_webhook_data_other_keys {Self : Type} (self : Self)
    (d : dict Secure.payload) (k : string) (v : Secure.payload) :
  k <> "user_id" -> k <> "action" ->
  Secure.validate_webhook_data self (Secure.PDict (dict_set d k v))
  = Secure.validate_webhook_data self (Secure.PDict d).
Proof.
  intros Hu Ha.
  unfold Secure.validate_webhook_data, Secure.get_or_none, dict_mem.
  now rewrite !dict_get_set_ne by trivial.
Qed.

Lemma validate_webhook_data_other_keys_witness :
  Secure.validate_webhook_data tt
    (Secure.PDict (dict_set [("user_id", Secure.PInt 7);
                             ("action", Secure.PStr "update_user")]
                     "is_admin" (Secure.PBool true)))
  = Secure.validate_webhook_data tt
      (Secure.PDict [("user_id", Secure.PInt 7);
                     ("action", Secure.PStr "update_user")]).
Proof.
  apply (validate_webhook_data_other_keys tt); discriminate.
Defined.

(** ** The context the loop ends with, from the returned mapping *)

Lemma dict_set_fresh {V} (d : dict V) k v :
  ~ In k (keys d) -> dict_set d k v = (d ++ [(k, v)])%list.
Proof.
  induction d as [|[k' v'] d IH]; simpl; intros Hk; [reflexivity|].
  destruct (String.eqb_spec k' k) as [->|Hne]; [tauto|].
  f_equal. apply IH. tauto.
Qed.

Lemma stored_fresh log results0 :
  NoDup (map name log) ->
  (forall f, In f log -> ~ In (name f) (keys results0)) ->
  stored log results0
  = (results0 ++ map (fun f => (name f, VDict (output f))) log)%list.
Proof.
  revert results0. induction log as [|f log IH]; intros results0 Hnd Hfresh.
  - simpl. now rewrite app_nil_r.
  - simpl in *. inversion Hnd as [|? ? Hf Hnd']; subst.
    unfold store. rewrite dict_set_fresh by (apply Hfresh; now left).
    rewrite IH; trivial.
    + now rewrite <- app_assoc.
    + intros g Hg Hin. unfold keys in Hin. rewrite map_app in Hin.
      apply in_app_iff in Hin as [Hin|[Hin|[]]].
      * apply (Hfresh g); auto.
      * simpl in Hin. apply Hf. rewrite Hin. now apply in_map.
Qed.

Lemma merge_entries_log log c0 :
  fold_left
    (fun c entry =>
       match snd entry with
       | VDict o => next_context c o
       | _ => c
       end)
    (map (fun f => (name f, VDict (output f))) log) c0
  = merged log c0.
Proof.
  revert c0. induction log as [|f log IH]; intros c0; simpl; trivial.
Qed.

(** X9: When the names of the agents are pairwise distinct, the merged context
    the loop ends with is not lost with the return: it is what merging the
    entries of the returned mapping, in order, gives. *)
Theorem final_context_from_results (agents : list Agent) problem out :
  NoDup (map agent_name agents) ->
  accepts_text agents = true ->
  exists st out',
    run_loop agents (run_entry problem) out = (inr st, out') /\
    Orchestrator_run (mkOrchestrator agents) problem out
      = (inr (results st), out') /\
    context st = merge_entries problem (results st).
Proof.
  intros Hnd Hacc.
  destruct (run_loop_log_total agents problem out Hacc)
    as (log & st & out' & Hrun).
  exists st, out'.
  rewrite Orchestrator_run_log, run_loop_log_erase, Hrun.
  repeat split.
  destruct (run_loop_log_spec _ _ _ _ _ _ Hrun) as (_ & Hres & Hctx).
  destruct (run_loop_log_names _ _ _ _ _ _ Hrun) as [Hn _].
  rewrite Hres, Hctx. simpl results. simpl context.
  rewrite stored_fresh.
  - simpl. unfold merge_entries. now rewrite merge_entries_log.
  - now rewrite Hn.
  - intros f _ [].
Qed.

Lemma final_context_from_results_witness :
  exists st out',
    run_loop pipeline (run_entry "shop") [] = (inr st, out') /\
    Orchestrator_run (mkOrchestrator pipeline) "shop" []
      = (inr (results st), out') /\
    context st = merge_entries "shop" (results st).
Proof.
  apply (final_context_from_results pipeline "shop" []).
  - exact NoDup_agent_names_pipeline.
  - reflexivity.
Defined.
